(** * internesh: the Prisma schema manager and its validate-and-repair loop

    A shallow embedding of [src/schema/schema_manager.py] (class
    [SchemaManager]), of [LLMClient.chat_completion] from
    [src/llm/client.py] and of [UnconfiguredAgent._process_input] from
    [src/agents/unconfigured_agent.py], followed by the properties of the
    specification that concern them.

    Modelling conventions.
    - A Python [str] is a [string]; every character is read as one code
      point below U+0100.
    - A Python [int] is a [Z].
    - The file system, the [prisma] executable and the chat model are the
      outside world.  The file system is an explicit state ([FS]); the
      executable and the chat model are oracles ([Env]) that may answer
      differently at every call, since they are given the whole world as it
      is when they are called.
    - Paths are relative to the working directory, which always exists and
      whose own absolute path is [cwd] of [Env] (used where the code
      resolves a path); files are opened in text mode on a POSIX system
      with a UTF-8 locale.  The [prisma] process reads the file system and
      does not change it, so that the temporary file it was given is still
      there to be removed once it has completed.
    - Every method is a computation in the monad [M]: it takes the world and
      gives back a value or a raised exception together with the new world.
      Only exceptions derived from [Exception] are modelled.
    - [logger] calls are not modelled.  The field [trace] of the world is
      ghost state that records which methods and collaborators were called,
      so that calls can be counted. *)

From Stdlib Require Import ZArith Ascii String List Lia DecimalString.
From stdpp Require Import base decidable option list gmap strings.

Local Open Scope string_scope.
Local Open Scope Z_scope.

(** ** Exceptions *)

Module Exn.

(** The exception classes the code can meet, all below [Exception]. *)
Inductive cls :=
| Exception
| OSError
| FileNotFoundError
| FileExistsError
| IsADirectoryError
| NotADirectoryError
| PermissionError
| ConnectionError
| NameError
| UnboundLocalError
| ValueError
| RuntimeError.

#[export] Instance cls_eq_dec : EqDecision cls.
Proof. solve_decision. Defined.

(** The direct base class, as in Python's built-in hierarchy. *)
Definition base (c : cls) : option cls :=
  match c with
  | Exception => None
  | OSError | NameError | ValueError | RuntimeError => Some Exception
  | FileNotFoundError | FileExistsError | IsADirectoryError
  | NotADirectoryError | PermissionError | ConnectionError => Some OSError
  | UnboundLocalError => Some NameError
  end.

Fixpoint issubclass_upto (n : nat) (c d : cls) : bool :=
  bool_decide (c = d) ||
  match n, base c with
  | S n', Some b => issubclass_upto n' b d
  | _, _ => false
  end.

(** The hierarchy has depth three. *)
Definition issubclass : cls -> cls -> bool := issubclass_upto 3.

(** An exception object: its class and [str(e)]. *)
Record t := mk { type : cls; str : string }.

Definition isinstance (e : t) (c : cls) : bool := issubclass (type e) c.

End Exn.

Abbreviation exn := Exn.t.

(** ** Paths and the file system *)

(** A [pathlib.Path] relative to the working directory, as its components.
  The empty list is the working directory itself. *)
Abbreviation path := (list string).

Module Path.

(** [a / b] for a relative [b]. *)
Definition div (a b : path) : path := (a ++ b)%list.

(** [p.parent]; the parent of the working directory is itself. *)
Definition parent (p : path) : path := removelast p.

Fixpoint join (sep : string) (l : list string) : string :=
  match l with
  | [] => ""
  | [x] => x
  | x :: l' => x +:+ sep +:+ join sep l'
  end.

(** [str(p)] *)
Definition to_str (p : path) : string :=
  match p with
  | [] => "."
  | _ => join "/" p
  end.

(** [p.resolve()] for a relative [p]: the components from the root, below
    the working directory [cwd] (itself given by its components from the
    root).  There are no symbolic links and no [..] components here. *)
Definition resolve (cwd p : path) : path := (cwd ++ p)%list.

(** [str(p)] for an absolute [p], given by its components from the root. *)
Definition abs_to_str (p : path) : string := "/" +:+ join "/" p.

(** The proper, non-empty prefixes of [p], shortest first. *)
Fixpoint ancestors (p : path) : list path :=
  match p with
  | [] | [_] => []
  | x :: p' => [x] :: map (cons x) (ancestors p')
  end.

End Path.

(** The file system: the directories below the working directory, and the
  regular files with their content. *)
Record FS := mkFS {
  dirs : gset (list string);
  files : gmap (list string) string
}.

Module Fs.

Definition is_dir (f : FS) (p : path) : bool :=
  bool_decide (p = []) || bool_decide (p ∈ dirs f).

Definition is_file (f : FS) (p : path) : bool :=
  negb (is_dir f p) && bool_decide (is_Some (files f !! p)).

(** [p.exists()] *)
Definition path_exists (f : FS) (p : path) : bool :=
  is_dir f p || is_file f p.

Definition quoted (p : path) : string := "'" +:+ Path.to_str p +:+ "'".

Definition ENOENT (p : path) : exn :=
  Exn.mk Exn.FileNotFoundError
    ("[Errno 2] No such file or directory: " +:+ quoted p).
Definition EEXIST (p : path) : exn :=
  Exn.mk Exn.FileExistsError ("[Errno 17] File exists: " +:+ quoted p).
Definition ENOTDIR (p : path) : exn :=
  Exn.mk Exn.NotADirectoryError ("[Errno 20] Not a directory: " +:+ quoted p).
Definition EISDIR (p : path) : exn :=
  Exn.mk Exn.IsADirectoryError ("[Errno 21] Is a directory: " +:+ quoted p).

(** Why a new entry cannot be made at [p], if it cannot: some ancestor is
    a regular file, or the parent directory is missing. *)
Definition parent_error (f : FS) (p : path) : option exn :=
  if existsb (is_file f) (Path.ancestors p) then Some (ENOTDIR p)
  else if is_dir f (Path.parent p) then None
  else Some (ENOENT p).

(** [with open(p, "w") as h: h.write(content)]: the file is created or
    truncated, then holds exactly [content] (on writing, text mode turns
    LF into [os.linesep], which is LF itself on the POSIX systems modelled
    here). *)
Definition write_text (f : FS) (p : path) (content : string) : exn + FS :=
  if is_dir f p then inl (EISDIR p)
  else match parent_error f p with
       | Some e => inl e
       | None => inr (mkFS (dirs f) (<[p := content]> (files f)))
       end.

(** What a file opened in text mode with the default [newline=None]
    gives on reading (universal newlines): every CR LF and every other CR
    comes out as LF. *)
Fixpoint universal_newlines (s : string) : string :=
  match s with
  | "" => ""
  | String a s' =>
      if Ascii.eqb a "013" then
        match s' with
        | String b s'' =>
            if Ascii.eqb b "010" then String "010" (universal_newlines s'')
            else String "010" (universal_newlines s')
        | "" => String "010" ""
        end
      else String a (universal_newlines s')
  end.

(** [with open(p, "r") as h: h.read()], in text mode. *)
Definition read_text (f : FS) (p : path) : exn + string :=
  if is_dir f p then inl (EISDIR p)
  else match files f !! p with
       | Some c => inr (universal_newlines c)
       | None => inl (match parent_error f p with
                      | Some e => e
                      | None => ENOENT p
                      end)
       end.

(** [p.unlink()] *)
Definition unlink (f : FS) (p : path) : exn + FS :=
  if is_dir f p then inl (EISDIR p)
  else match files f !! p with
       | Some _ => inr (mkFS (dirs f) (delete p (files f)))
       | None => inl (match parent_error f p with
                      | Some e => e
                      | None => ENOENT p
                      end)
       end.

(** [os.mkdir(p)] *)
Definition os_mkdir (f : FS) (p : path) : exn + FS :=
  if path_exists f p then inl (EEXIST p)
  else match parent_error f p with
       | Some e => inl e
       | None => inr (mkFS ({[p]} ∪ dirs f) (files f))
       end.

(** The [except OSError] arm of [Path.mkdir] with [exist_ok=True]. *)
Definition mkdir_exist_ok (f : FS) (p : path) (r : exn + FS) : exn + FS :=
  match r with
  | inr f' => inr f'
  | inl e => if is_dir f p then inr f else inl e
  end.

(** [p.mkdir(parents=True, exist_ok=True)], as [pathlib] writes it:
    try [os.mkdir]; on [FileNotFoundError] make the parent first and try
    again; on any other [OSError] accept an existing directory.  The
    recursion is on the number of components left. *)
Fixpoint mkdir_parents_upto (n : nat) (f : FS) (p : path) : exn + FS :=
  match os_mkdir f p with
  | inr f' => inr f'
  | inl e =>
      if Exn.isinstance e Exn.FileNotFoundError then
        if bool_decide (Path.parent p = p) then inl e
        else match n with
             | O => inl e
             | S n' =>
                 match mkdir_parents_upto n' f (Path.parent p) with
                 | inl e' => inl e'
                 | inr f' => mkdir_exist_ok f' p (os_mkdir f' p)
                 end
             end
      else mkdir_exist_ok f p (inl e)
  end.

Definition mkdir_parents (f : FS) (p : path) : exn + FS :=
  mkdir_parents_upto (length p) f p.

End Fs.

(** ** Python string operations *)

Module PyStr.

Definition nl : string := String "010"%char "".
Definition cr : string := String "013"%char "".

(** The truth value of a [str]: non-empty. *)
Definition truthy (s : string) : bool :=
  match s with
  | "" => false
  | _ => true
  end.

(** [a or b] on strings. *)
Definition or_else (a b : string) : string := if truthy a then a else b.

(** [sep.join(l)] *)
Definition join (sep : string) (l : list string) : string := Path.join sep l.

(** [needle in s] *)
Fixpoint contains (needle s : string) : bool :=
  String.prefix needle s ||
  match s with
  | "" => false
  | String _ s' => contains needle s'
  end.

(** [s.startswith(p)] *)
Definition startswith (p s : string) : bool := String.prefix p s.

(** [s.split(c)] for a one-character separator: never the empty list. *)
Fixpoint split (c : ascii) (s : string) : list string :=
  match s with
  | "" => [""]
  | String a s' =>
      if Ascii.eqb a c then "" :: split c s'
      else match split c s' with
           | h :: t => String a h :: t
           | [] => [String a ""]
           end
  end.

(** [str.isspace] on one code point below U+0100: TAB, LF, VT, FF, CR,
    FS, GS, RS, US, space, NEL and the no-break space. *)
Definition isspace (a : ascii) : bool :=
  let n := nat_of_ascii a in
  ((9 <=? n) && (n <=? 13))%nat || ((28 <=? n) && (n <=? 32))%nat
  || (n =? 133)%nat || (n =? 160)%nat.

(** [s.lstrip()] *)
Fixpoint lstrip (s : string) : string :=
  match s with
  | "" => ""
  | String a s' => if isspace a then lstrip s' else s
  end.

(** [s.rstrip()] *)
Fixpoint rstrip (s : string) : string :=
  match s with
  | "" => ""
  | String a s' =>
      match rstrip s' with
      | "" => if isspace a then "" else String a ""
      | r => String a r
      end
  end.

(** [s.strip()] *)
Definition strip (s : string) : string := rstrip (lstrip s).

(** [str(n)] for an [int]. *)
Definition of_int (n : Z) : string := NilZero.string_of_int (Z.to_int n).

End PyStr.

(** ** The objects of the program *)

(** [LLMClient]: a handle on a chat model; the model itself is outside.
    The [temperature], a float, is only handed on to the model and is left
    out. *)
Record LLMClient := mkLLMClient {
  model : string;
  max_tokens : option Z
}.

(** A role-tagged message handed to the chat model. *)
Inductive BaseMessage :=
| SystemMessage (content : string)
| HumanMessage (content : string)
| AIMessage (content : string).

(** [SchemaManager]: the fields set by [__init__]. *)
Record SchemaManager := mkSchemaManager {
  schema_dir : list string;
  schema_file : list string;
  schema_path : list string;
  llm_client : option LLMClient
}.

(** The dictionary returned by [validate_schema]. *)
Record ValidationResult := mkResult {
  success : bool;
  error : string;
  fixed_schema : string;
  attempts : Z
}.

(** [subprocess.CompletedProcess] with captured text output. *)
Record CompletedProcess := mkCompleted {
  returncode : Z;
  stdout : string;
  stderr : string
}.

(** What was called, most recent first (ghost state). *)
Inductive event :=
| CallCheck (candidate : string)
| CallRepair (candidate diagnostic : string)
| CallSetSchema (content : string)
| ProcLaunch (argv : list string)
| LLMInvoke (client : LLMClient) (messages : list BaseMessage).

(** The world: the file system, the module-level [schema_manager] object,
    and the ghost trace. *)
Record World := mkWorld {
  fs : FS;
  schema_manager : SchemaManager;
  trace : list event
}.

(** What [self.llm.invoke(messages)] can do: answer, answer nothing, or
    raise. *)
Inductive invoke_outcome :=
| Response (content : string)
| NoResponse
| InvokeRaises (e : exn).

(** The outside collaborators.  Each is asked with the world as it is at
    the call.  [database_url] is [settings.database_url] of [src/config],
    already formatted as text; [cwd] is the working directory of the
    process, by its components from the root. *)
Record Env := mkEnv {
  subprocess_run : World -> list string -> exn + CompletedProcess;
  llm_invoke : World -> LLMClient -> list BaseMessage -> invoke_outcome;
  database_url : string;
  cwd : path
}.

(** ** The agent and its state dictionary *)

Module Agent.

(** [UnconfiguredAgent]: [llm_client] is never [None] after [__init__]. *)
Record t := mk {
  llm_client : LLMClient;
  tools : list string;
  system_prompt : string
}.

(** [AgentState]; the key ["error"] may be absent ([None]) or hold
    Python's [None] ([Some None]). *)
Record AgentState := mkState {
  messages : list BaseMessage;
  user_input : string;
  response : string;
  error : option (option string);
  metadata : gmap string string
}.

(** [if "error" in state: del state["error"]] *)
Definition del_error (s : AgentState) : AgentState :=
  mkState (messages s) (user_input s) (response s) None (metadata s).

(** [state["error"] = v] *)
Definition set_error (s : AgentState) (v : option string) : AgentState :=
  mkState (messages s) (user_input s) (response s) (Some v) (metadata s).

(** [state["response"] = v] *)
Definition set_response (s : AgentState) (v : string) : AgentState :=
  mkState (messages s) (user_input s) v (error s) (metadata s).

End Agent.

(** ** The monad of methods *)

Inductive outcome (A : Type) :=
| Return (a : A)
| Raise (e : exn)
| OutOfFuel.
Arguments Return {A} a.
Arguments Raise {A} e.
Arguments OutOfFuel {A}.

Definition M (A : Type) : Type := World -> outcome A * World.

Definition ret {A} (a : A) : M A := fun w => (Return a, w).

Definition raise {A} (e : exn) : M A := fun w => (Raise e, w).

Definition out_of_fuel {A} : M A := fun w => (OutOfFuel, w).

Definition bind {A B} (c : M A) (k : A -> M B) : M B :=
  fun w =>
    match c w with
    | (Return a, w') => k a w'
    | (Raise e, w') => (Raise e, w')
    | (OutOfFuel, w') => (OutOfFuel, w')
    end.

(** [try: body / except Exception as e: handler e]; every modelled
    exception is an [Exception]. *)
Definition try_except {A} (body : M A) (handler : exn -> M A) : M A :=
  fun w =>
    match body w with
    | (Raise e, w') => handler e w'
    | r => r
    end.

Declare Scope py_scope.
Delimit Scope py_scope with py.
Notation "x <- c ;; k" := (bind c (fun x => k))
  (at level 100, c at next level, right associativity) : py_scope.
Notation "c ;; k" := (bind c (fun _ => k))
  (at level 100, right associativity) : py_scope.
Local Open Scope py_scope.

Definition get_fs : M FS := fun w => (Return (fs w), w).

Definition put_fs (f : FS) : M unit :=
  fun w => (Return tt, mkWorld f (schema_manager w) (trace w)).

Definition note (ev : event) : M unit :=
  fun w => (Return tt, mkWorld (fs w) (schema_manager w) (ev :: trace w)).

(** Lift a file-system operation that may fail. *)
Definition fs_update (op : FS -> exn + FS) : M unit :=
  f <- get_fs ;;
  match op f with
  | inl e => raise e
  | inr f' => put_fs f'
  end.

Definition fs_query {A} (op : FS -> exn + A) : M A :=
  f <- get_fs ;;
  match op f with
  | inl e => raise e
  | inr a => ret a
  end.

Definition when (b : bool) (c : M unit) : M unit := if b then c else ret tt.

(** ** Removal of Markdown code fences

    The same lines stand in [_fix_schema_with_llm] (lines 156-169 of
    [schema_manager.py]) and in [_process_input] (lines 120-133 of
    [unconfigured_agent.py]); both callers apply [strip] afterwards. *)

Definition fence : string := "```".

(** One turn of [for line in lines], on the locals [in_code_block] and
    [schema_lines]. *)
Definition fence_step (st : bool * list string) (line : string)
  : bool * list string :=
  let '(in_code_block, schema_lines) := st in
  if PyStr.startswith fence (PyStr.strip line)
  then (negb in_code_block, schema_lines)
  else if in_code_block then (in_code_block, (schema_lines ++ [line])%list)
  else (in_code_block, schema_lines).

Definition extract_code_block (text : string) : string :=
  if PyStr.contains fence text then
    let lines := PyStr.split "010"%char text in
    let '(_, schema_lines) := fold_left fence_step lines (false, []) in
    PyStr.join PyStr.nl schema_lines
  else text.

(** The whole stripping step: fences, then surrounding white space. *)
Definition strip_fences (text : string) : string :=
  PyStr.strip (extract_code_block text).

Section Program.

Context (E : Env).

(** ** [LLMClient] *)

(** [generate_response]: an exception of the model is logged and raised
    again; an absent or empty answer becomes the empty string. *)
Definition generate_response (self : LLMClient) (messages : list BaseMessage)
  : M string :=
  note (LLMInvoke self messages) ;;
  fun w =>
    match llm_invoke E w self messages with
    | InvokeRaises e => (Raise e, w)
    | NoResponse => (Return "", w)
    | Response content => (Return content, w)
    end.

(** [chat_completion] as it is called here, without
    [conversation_history]. *)
Definition chat_completion (self : LLMClient)
    (user_message : string) (system_message : option string) : M string :=
  let messages := [] in
  let messages :=
    match system_message with
    | Some s => if PyStr.truthy s then (messages ++ [SystemMessage s])%list
                else messages
    | None => messages
    end in
  let messages := (messages ++ [HumanMessage user_message])%list in
  generate_response self messages.

(** ** [SchemaManager] *)

(** [SchemaManager(schema_dir, schema_file, llm_client)] *)
Definition __init__ (schema_dir schema_file : path)
    (llm_client : option LLMClient) : M SchemaManager :=
  let self := mkSchemaManager schema_dir schema_file
                (Path.div schema_dir schema_file) llm_client in
  fs_update (fun f => Fs.mkdir_parents f schema_dir) ;;
  ret self.

Definition get_schema (self : SchemaManager) : M string :=
  f <- get_fs ;;
  if negb (Fs.path_exists f (schema_path self)) then ret ""
  else
    schema_content <- fs_query (fun f => Fs.read_text f (schema_path self)) ;;
    ret schema_content.

Definition set_schema (self : SchemaManager) (schema_content : string)
  : M unit :=
  note (CallSetSchema schema_content) ;;
  fs_update (fun f => Fs.write_text f (schema_path self) schema_content).

Definition temp_schema_path (self : SchemaManager) : path :=
  Path.div (schema_dir self) ["temp_schema.prisma"].

Definition cli_not_found : string :=
  PyStr.join PyStr.nl
    [ "Prisma CLI not found. Please install Prisma:";
      "  Python: pip install prisma";
      "  Node.js: npm install -g prisma" ].

(** [subprocess.run(argv, capture_output=True, text=True)] *)
Definition run_process (argv : list string) : M CompletedProcess :=
  note (ProcLaunch argv) ;;
  fun w =>
    match subprocess_run E w argv with
    | inl e => (Raise e, w)
    | inr result => (Return result, w)
    end.

Definition _run_prisma_validate (self : SchemaManager)
    (schema_content : string) : M (bool * string) :=
  note (CallCheck schema_content) ;;
  try_except
    (let temp_schema_path := temp_schema_path self in
     fs_update (fun f => Fs.write_text f temp_schema_path schema_content) ;;
     let temp_schema_abs_path := Path.resolve (cwd E) temp_schema_path in
     result <- run_process
                 [ "prisma"; "validate";
                   "--schema=" +:+ Path.abs_to_str temp_schema_abs_path ] ;;
     f <- get_fs ;;
     when (Fs.path_exists f temp_schema_path)
          (fs_update (fun f => Fs.unlink f temp_schema_path)) ;;
     if returncode result =? 0 then ret (true, "")
     else
       let error_msg :=
         PyStr.or_else (PyStr.or_else (stderr result) (stdout result))
                       "Unknown validation error" in
       ret (false, error_msg))
    (fun e =>
       if Exn.isinstance e Exn.FileNotFoundError then
         let error_msg := cli_not_found in
         ret (false, error_msg)
       else
         let error_msg := "Error running prisma validate: " +:+ Exn.str e in
         ret (false, error_msg)).

Definition fix_prompt (schema_content error_message : string) : string :=
  PyStr.join PyStr.nl
    [ "You are a Prisma schema expert. Fix the following Prisma schema based on the error message.";
      "";
      "Error:";
      error_message;
      "";
      "Current Schema:";
      "```prisma";
      schema_content;
      "```";
      "";
      "Please provide the fixed Prisma schema. Return ONLY the complete, corrected schema without any explanations or markdown formatting outside of the code block." ].

Definition fix_system_message : string :=
  PyStr.join PyStr.nl
    [ "You are an expert at fixing Prisma schemas. Your job is to identify and fix syntax errors, validation issues, and schema problems in Prisma schema files.";
      "            ";
      "When fixing schemas:";
      "1. Ensure all model definitions are correct";
      "2. Check that field types are valid";
      "3. Verify relation syntax is correct";
      "4. Do not change or add any extra information such as relations, fields, etc.";
      "";
      "Return only the complete fixed schema in a prisma code block." ].

Definition _fix_schema_with_llm (self : SchemaManager)
    (schema_content error_message : string) : M string :=
  note (CallRepair schema_content error_message) ;;
  match llm_client self with
  | None => ret schema_content
  | Some client =>
      let prompt := fix_prompt schema_content error_message in
      try_except
        (let system_message := fix_system_message in
         fixed_schema <- chat_completion client prompt (Some system_message) ;;
         let fixed_schema := extract_code_block fixed_schema in
         ret (PyStr.strip fixed_schema))
        (fun e => ret schema_content)
  end.

(** How the [while] loop of [validate_schema] is left: by the [return]
    inside it, or by falling out of it (condition false, or [break]) with
    the locals as they then are.  [error_message] is unbound until the
    first validator call has returned. *)
Inductive loop_exit :=
| Returned (result : ValidationResult)
| Left (attempts : Z) (current_schema : string)
       (error_message : option string).

Fixpoint validate_loop (fuel : nat) (self : SchemaManager)
    (schema_content : string) (max_retries : Z)
    (attempts : Z) (current_schema : string) (error_message : option string)
  : M loop_exit :=
  match fuel with
  | O => out_of_fuel
  | S fuel' =>
      if attempts <? max_retries then
        let attempts := attempts + 1 in
        checked <- _run_prisma_validate self current_schema ;;
        let '(success, error_message) := checked in
        if success : bool then
          when (negb (String.eqb current_schema schema_content))
               (set_schema self current_schema) ;;
          ret (Returned (mkResult true "" current_schema attempts))
        else if (attempts <? max_retries) && bool_decide (is_Some (llm_client self))
        then
          current_schema <- _fix_schema_with_llm self current_schema error_message ;;
          validate_loop fuel' self schema_content max_retries
                        attempts current_schema (Some error_message)
        else ret (Left attempts current_schema (Some error_message))
      else ret (Left attempts current_schema error_message)
  end.

Definition unbound_error_message : exn :=
  Exn.mk Exn.UnboundLocalError
    "cannot access local variable 'error_message' where it is not associated with a value".

(** [validate_schema]: the loop is given one unit of fuel more than
    [max_retries], which [validate_schema_total] below shows to be
    enough. *)
Definition validate_schema (self : SchemaManager) (schema_content : string)
    (max_retries : Z) : M ValidationResult :=
  if negb (PyStr.truthy schema_content) then
    ret (mkResult false "Schema content is empty" "" 0)
  else
    let attempts := 0 in
    let current_schema := schema_content in
    r <- validate_loop (S (Z.to_nat max_retries)) self schema_content
           max_retries attempts current_schema None ;;
    match r with
    | Returned result => ret result
    | Left attempts current_schema error_message =>
        match error_message with
        | None => raise unbound_error_message
        | Some error_message =>
            ret (mkResult false error_message current_schema attempts)
        end
    end.

(** ** [UnconfiguredAgent._process_input] *)

Definition get_schema_manager : M SchemaManager :=
  fun w => (Return (schema_manager w), w).

(** [schema_manager.llm_client = client] on the module-level object. *)
Definition set_schema_manager_llm_client (client : LLMClient) : M unit :=
  fun w =>
    let sm := schema_manager w in
    (Return tt,
     mkWorld (fs w)
       (mkSchemaManager (schema_dir sm) (schema_file sm) (schema_path sm)
          (Some client))
       (trace w)).

Definition schema_prompt (user_input : string) : string :=
  PyStr.join PyStr.nl
    [ "Based on the following user requirements, generate a complete Prisma schema file.";
      "";
      "User Requirements:";
      user_input;
      "";
      "Please generate a valid Prisma schema that matches these requirements. Include all necessary models, fields, and relationships.";
      "";
      "Return ONLY the Prisma schema, starting with 'generator client' and including the 'datasource db' block. Use the postgresql provider with 'postgresql' as the provider." ].

Definition schema_system_message : string :=
  PyStr.join PyStr.nl
    [ "You are a Prisma schema expert. Generate valid, production-ready Prisma schemas based on user requirements.";
      "";
      "Requirements:";
      "- Always include 'generator client' and 'datasource db' blocks";
      "- Use PostgreSQL as the database provider";
      "- Define all necessary models with appropriate fields";
      "- Use proper Prisma field types (String, Int, Float, Boolean, DateTime, Json, etc.)";
      "- Include necessary relations between models";
      "- Add appropriate constraints and indexes when needed";
      "- " +:+ database_url E +:+ " is the database URL";
      "";
      "Return only the complete, valid Prisma schema without any additional explanations." ].

Definition success_response (sm : SchemaManager) (r : ValidationResult)
  : string :=
  "Successfully generated and validated Prisma schema!" +:+ PyStr.nl
  +:+ PyStr.nl +:+ "Schema saved to " +:+ Path.to_str (schema_path sm)
  +:+ PyStr.nl +:+ PyStr.nl +:+ "Generated schema:" +:+ PyStr.nl
  +:+ fixed_schema r.

Definition failure_response (r : ValidationResult) (schema_content : string)
  : string :=
  "Failed to validate the generated schema after "
  +:+ PyStr.of_int (attempts r) +:+ " attempts." +:+ PyStr.nl +:+ PyStr.nl
  +:+ "Error: " +:+ error r +:+ PyStr.nl +:+ PyStr.nl
  +:+ "Generated schema:" +:+ PyStr.nl +:+ schema_content.

(** The [state] dictionary is changed once before anything can raise
    ([del state["error"]]) and then only after the last call that can
    raise, so the handler sees the state as it is after the deletion. *)
Definition _process_input (self : Agent.t) (state : Agent.AgentState)
  : M Agent.AgentState :=
  let state := Agent.del_error state in
  try_except
    (let user_input := Agent.user_input state in
     let schema_prompt := schema_prompt user_input in
     let system_message := schema_system_message in
     schema_content <- chat_completion (Agent.llm_client self) schema_prompt
                         (Some system_message) ;;
     let schema_content := extract_code_block schema_content in
     let schema_content := PyStr.strip schema_content in
     set_schema_manager_llm_client (Agent.llm_client self) ;;
     sm <- get_schema_manager ;;
     validation_result <- validate_schema sm schema_content 3 ;;
     if success validation_result then
       set_schema sm (fixed_schema validation_result) ;;
       ret (Agent.set_error
              (Agent.set_response state (success_response sm validation_result))
              None)
     else
       ret (Agent.set_error
              (Agent.set_response state
                 (failure_response validation_result schema_content))
              (Some (error validation_result))))
    (fun e =>
       ret (Agent.set_response
              (Agent.set_error state (Some (Exn.str e)))
              ("I encountered an error while generating the schema: "
               +:+ Exn.str e))).

End Program.

(** * More of the program *)

(** ** [LLMClient.chat_completion] with a conversation history *)

(** [KeyError(key)], raised by [d[key]] on a dictionary without [key]. *)
Inductive KeyError := mkKeyError (key : string).

(** [d[k]] on a [Dict[str, str]] *)
Definition dict_get (d : gmap string string) (k : string) : KeyError + string :=
  match d !! k with
  | Some v => inr v
  | None => inl (mkKeyError k)
  end.

(** [for msg in conversation_history: ...], on the local [messages]. *)
Fixpoint history_messages (conversation_history : list (gmap string string))
    (messages : list BaseMessage) : KeyError + list BaseMessage :=
  match conversation_history with
  | [] => inr messages
  | msg :: rest =>
      match dict_get msg "role" with
      | inl e => inl e
      | inr role =>
          if String.eqb role "user" then
            match dict_get msg "content" with
            | inl e => inl e
            | inr content =>
                history_messages rest (messages ++ [HumanMessage content])%list
            end
          else if String.eqb role "assistant" then
            match dict_get msg "content" with
            | inl e => inl e
            | inr content =>
                history_messages rest (messages ++ [AIMessage content])%list
            end
          else history_messages rest messages
      end
  end.

(** The list [messages] that [chat_completion] hands to
    [generate_response] (lines 96-108 of [client.py]). *)
Definition build_messages (user_message : string)
    (system_message : option string)
    (conversation_history : option (list (gmap string string)))
  : KeyError + list BaseMessage :=
  let messages := [] in
  let messages :=
    match system_message with
    | Some s => if PyStr.truthy s then (messages ++ [SystemMessage s])%list
                else messages
    | None => messages
    end in
  let looped :=
    match conversation_history with
    | Some (msg :: rest) => history_messages (msg :: rest) messages
    | Some [] | None => inr messages
    end in
  match looped with
  | inl e => inl e
  | inr messages => inr (messages ++ [HumanMessage user_message])%list
  end.

(** [str(e)] of a [KeyError] is the [repr] of the key.  [KeyError] is a
    [LookupError]; of its classes, [Exn.cls] has [Exception] only. *)
Definition key_error_exn (e : KeyError) : exn :=
  match e with
  | mkKeyError k => Exn.mk Exn.Exception ("'" +:+ k +:+ "'")
  end.

Section MoreProgram.

Context (E : Env).

(** [chat_completion] with all its parameters. *)
Definition chat_completion_history (self : LLMClient)
    (user_message : string) (system_message : option string)
    (conversation_history : option (list (gmap string string))) : M string :=
  match build_messages user_message system_message conversation_history with
  | inl e => raise (key_error_exn e)
  | inr messages => generate_response E self messages
  end.

(** ** [_generate_response], the same in both agents *)

(** [state.get("error")], as a truth value. *)
Definition error_truthy (state : Agent.AgentState) : bool :=
  match Agent.error state with
  | Some (Some e) => PyStr.truthy e
  | _ => false
  end.

(** [state['error']] inside an f-string, where [error_truthy] holds. *)
Definition error_text (state : Agent.AgentState) : string :=
  match Agent.error state with
  | Some (Some e) => e
  | _ => "None"
  end.

Definition no_response_apology : string :=
  "I apologize, but I couldn't generate a response. Please try again.".

(** [UnconfiguredAgent._generate_response] (lines 169-202) and
    [BasicAgent._generate_response] (lines 99-124).  The state is changed
    only after the one call that can raise. *)
Definition _generate_response (self : Agent.t) (state : Agent.AgentState)
  : M Agent.AgentState :=
  try_except
    (if error_truthy state then
       ret (Agent.set_response state
              ("I encountered an error earlier: " +:+ error_text state
               +:+ ". Please try again."))
     else
       response <- generate_response E (Agent.llm_client self)
                     (Agent.messages state) ;;
       if negb (PyStr.truthy response)
          || String.eqb (PyStr.strip response) ""
       then ret (Agent.set_response state no_response_apology)
       else ret (Agent.set_response state response))
    (fun e =>
       ret (Agent.set_response
              (Agent.set_error state (Some (Exn.str e)))
              ("I encountered an error: " +:+ Exn.str e))).

End MoreProgram.

(** ** [BasicAgent._process_input] *)

Module BasicAgent.

(** [state["messages"] = messages] *)
Definition set_messages (s : Agent.AgentState) (v : list BaseMessage)
  : Agent.AgentState :=
  Agent.mkState v (Agent.user_input s) (Agent.response s) (Agent.error s)
    (Agent.metadata s).

(** Nothing in the [try] can raise on a state that has its keys, so the
    [except] arm is never taken. *)
Definition _process_input (self : Agent.t) (state : Agent.AgentState)
  : Agent.AgentState :=
  let state := Agent.del_error state in
  let messages := [SystemMessage (Agent.system_prompt self)] in
  let messages := (messages ++ [HumanMessage (Agent.user_input state)])%list in
  set_messages state messages.

End BasicAgent.

(** ** [DatabaseClient] ([src/database/connection.py])

    The [psycopg2] driver is outside: every call to it is recorded and
    answered by an oracle that is given the calls made so far, the present
    one first.  A connection object is known by a number.  [V] is the type
    of the values in a row and of the parameters of a statement. *)

Module Db.

Section Client.

Context {V : Type}.

(** [result[0] == 1] for a value of a row. *)
Context (equals_one : V -> bool).

Inductive call :=
| Connect (url : string)
| OpenCursor (conn : nat) (real_dict : bool)
| Execute (conn : nat) (statement : string) (params : option (list V))
| FetchAll (conn : nat)
| FetchOne (conn : nat)
| RowCount (conn : nat)
| CloseCursor (conn : nat)
| Commit (conn : nat)
| Rollback (conn : nat)
| Close (conn : nat).

(** The answers of the driver.  [None] among the [option exn] answers is
    a call that returns. *)
Record Driver := mkDriver {
  on_connect : list call -> exn + nat;
  on_cursor : list call -> option exn;
  on_execute : list call -> option exn;
  on_fetchall : list call -> exn + list (list (string * V));
  on_fetchone : list call -> exn + option (list V);
  on_rowcount : list call -> Z;
  on_close_cursor : list call -> option exn;
  on_commit : list call -> option exn;
  on_rollback : list call -> option exn;
  on_close : list call -> option exn
}.

(** The client object, and the calls made so far (most recent first). *)
Record State := mkState {
  connection_url : string;
  _connection : option nat;
  calls : list call
}.

Definition DM (A : Type) : Type := State -> outcome A * State.

Definition ret {A} (a : A) : DM A := fun s => (Return a, s).
Definition raise {A} (e : exn) : DM A := fun s => (Raise e, s).
Definition bind {A B} (c : DM A) (k : A -> DM B) : DM B :=
  fun s =>
    match c s with
    | (Return a, s') => k a s'
    | (Raise e, s') => (Raise e, s')
    | (OutOfFuel, s') => (OutOfFuel, s')
    end.

(** [try: body / except Exception as e: handler e] *)
Definition try_except {A} (body : DM A) (handler : exn -> DM A) : DM A :=
  fun s =>
    match body s with
    | (Raise e, s') => handler e s'
    | r => r
    end.

(** [try: body / finally: final]: [final] runs whatever [body] has done;
    when [final] raises, its exception is the one that goes on. *)
Definition try_finally {A} (body : DM A) (final : DM unit) : DM A :=
  fun s =>
    let '(r, s1) := body s in
    match final s1 with
    | (Return _, s2) => (r, s2)
    | (Raise e, s2) => (Raise e, s2)
    | (OutOfFuel, s2) => (OutOfFuel, s2)
    end.

Declare Scope db_scope.
Notation "x <- c ;; k" := (bind c (fun x => k))
  (at level 100, c at next level, right associativity) : db_scope.
Notation "c ;; k" := (bind c (fun _ => k))
  (at level 100, right associativity) : db_scope.
Local Open Scope db_scope.

Context (D : Driver).

(** A call to the driver that returns nothing. *)
Definition driver_call (cl : call) (answer : list call -> option exn)
  : DM unit :=
  fun s =>
    let s' := mkState (connection_url s) (_connection s) (cl :: calls s) in
    match answer (calls s') with
    | Some e => (Raise e, s')
    | None => (Return tt, s')
    end.

(** A call to the driver that returns a value. *)
Definition driver_ask {A} (cl : call) (answer : list call -> exn + A)
  : DM A :=
  fun s =>
    let s' := mkState (connection_url s) (_connection s) (cl :: calls s) in
    match answer (calls s') with
    | inl e => (Raise e, s')
    | inr a => (Return a, s')
    end.

Definition set_connection (c : option nat) : DM unit :=
  fun s => (Return tt, mkState (connection_url s) c (calls s)).

Definition get_connection : DM (option nat) :=
  fun s => (Return (_connection s), s).

(** [with conn.cursor(...) as cursor: body]: the cursor is closed when the
    block is left; an exception of the closing replaces the outcome of the
    block. *)
Definition with_cursor {A} (conn : nat) (real_dict : bool) (body : DM A)
  : DM A :=
  driver_call (OpenCursor conn real_dict) (on_cursor D) ;;
  try_finally body (driver_call (CloseCursor conn) (on_close_cursor D)).

(** [DatabaseClient()], with [settings.database_url] of [src/config] as
    [url]. *)
Definition __init__ (url : option string) : outcome State :=
  match url with
  | Some u =>
      if PyStr.truthy u then Return (mkState u None [])
      else Raise (Exn.mk Exn.ValueError
                    "DATABASE_URL not found in environment variables")
  | None => Raise (Exn.mk Exn.ValueError
                     "DATABASE_URL not found in environment variables")
  end.

Definition connect : DM unit :=
  try_except
    (fun s =>
       (c <- driver_ask (Connect (connection_url s)) (on_connect D) ;;
        set_connection (Some c)) s)
    (fun e => raise e).

Definition disconnect : DM unit :=
  c <- get_connection ;;
  match c with
  | Some conn =>
      driver_call (Close conn) (on_close D) ;;
      set_connection None
  | None => ret tt
  end.

(** [if not self._connection: self.connect()], then [self._connection]
    as the body of the [try] reads it; it is never [None] there, since
    [connect] has returned. *)
Definition ensure_connection : DM nat :=
  c <- get_connection ;;
  match c with
  | Some conn => ret conn
  | None =>
      connect ;;
      c <- get_connection ;;
      match c with
      | Some conn => ret conn
      | None => raise (Exn.mk Exn.Exception
                         "'NoneType' object has no attribute 'cursor'")
      end
  end.

(** A row of a [RealDictCursor] is the list of its columns with their
    values, and [[dict(row) for row in results]] is [results] again. *)
Definition execute_query (query : string) (params : option (list V))
  : DM (list (list (string * V))) :=
  conn <- ensure_connection ;;
  try_except
    (with_cursor conn true
       (driver_call (Execute conn query params) (on_execute D) ;;
        results <- driver_ask (FetchAll conn) (on_fetchall D) ;;
        ret results))
    (fun e => raise e).

Definition execute_command (command : string) (params : option (list V))
  : DM Z :=
  conn <- ensure_connection ;;
  try_except
    (with_cursor conn false
       (driver_call (Execute conn command params) (on_execute D) ;;
        driver_call (Commit conn) (on_commit D) ;;
        fun s =>
          let s' := mkState (connection_url s) (_connection s)
                      (RowCount conn :: calls s) in
          (Return (on_rowcount D (calls s')), s')))
    (fun e =>
       driver_call (Rollback conn) (on_rollback D) ;;
       raise e).

Definition execute_script (script : string) : DM unit :=
  conn <- ensure_connection ;;
  try_except
    (with_cursor conn false
       (driver_call (Execute conn script None) (on_execute D) ;;
        driver_call (Commit conn) (on_commit D)))
    (fun e =>
       driver_call (Rollback conn) (on_rollback D) ;;
       raise e).

(** [result[0] == 1]: [result] is [None] when there is no row, and then,
    as for a row without a column, the subscript raises (a [TypeError] or
    an [IndexError], kept here by their base class, since the handler
    that catches them at once looks at none of it). *)
Definition first_column_is_one (result : option (list V)) : DM bool :=
  match result with
  | Some (v :: _) => ret (equals_one v)
  | Some [] => raise (Exn.mk Exn.Exception "tuple index out of range")
  | None => raise (Exn.mk Exn.Exception
                     "'NoneType' object is not subscriptable")
  end.

Definition test_connection : DM bool :=
  try_finally
    (try_except
       (connect ;;
        c <- get_connection ;;
        match c with
        | Some conn =>
            with_cursor conn false
              (driver_call (Execute conn "SELECT 1" None) (on_execute D) ;;
               result <- driver_ask (FetchOne conn) (on_fetchone D) ;;
               first_column_is_one result)
        | None => raise (Exn.mk Exn.Exception
                           "'NoneType' object has no attribute 'cursor'")
        end)
       (fun e => ret false))
    disconnect.

End Client.

End Db.

(** * Vocabulary of the properties *)

(** ** Counting calls in the ghost trace *)

Definition is_check (ev : event) : bool :=
  match ev with CallCheck _ => true | _ => false end.
Definition is_repair (ev : event) : bool :=
  match ev with CallRepair _ _ => true | _ => false end.
Definition is_write (ev : event) : bool :=
  match ev with CallSetSchema _ => true | _ => false end.

Fixpoint count (P : event -> bool) (t : list event) : nat :=
  match t with
  | [] => 0%nat
  | ev :: t' => ((if P ev then 1 else 0) + count P t')%nat
  end.

(** Calls of the validator adapter, of the repair requester and of
    [set_schema] recorded in a world. *)
Definition checks (w : World) : nat := count is_check (trace w).
Definition repairs (w : World) : nat := count is_repair (trace w).
Definition writes (w : World) : nat := count is_write (trace w).

(** Two file systems that agree on the directories and on every file
    except possibly the one at [p]. *)
Definition same_except (p : path) (f f' : FS) : Prop :=
  dirs f' = dirs f /\ forall q, q <> p -> files f' !! q = files f !! q.

(** ** The cases of the validator adapter and of the repair requester *)

(** What the two [except] arms of [_run_prisma_validate] return. *)
Definition except_result (e : exn) : bool * string :=
  if Exn.isinstance e Exn.FileNotFoundError then (false, cli_not_found)
  else (false, "Error running prisma validate: " +:+ Exn.str e).

(** What is returned after the process has completed. *)
Definition completed_result (r : CompletedProcess) : bool * string :=
  if returncode r =? 0 then (true, "")
  else (false,
        PyStr.or_else (PyStr.or_else (stderr r) (stdout r))
                      "Unknown validation error").

Definition validate_argv (E : Env) (self : SchemaManager) : list string :=
  [ "prisma"; "validate";
    "--schema=" +:+ Path.abs_to_str (Path.resolve (cwd E) (temp_schema_path self)) ].

(** The world in which the process is launched, once the temporary file
    holds the candidate. *)
Definition launch_world (E : Env) (self : SchemaManager) (c : string)
    (f1 : FS) (w : World) : World :=
  mkWorld f1 (schema_manager w)
    (ProcLaunch (validate_argv E self) :: CallCheck c :: trace w).

(** The messages of a repair request. *)
Definition fix_messages (c d : string) : list BaseMessage :=
  [SystemMessage fix_system_message; HumanMessage (fix_prompt c d)].

(** ** What a run of the loop and of the orchestrator ensures *)

(** Some validator call on some candidate passes. *)
Definition check_passes (E : Env) (self : SchemaManager) : Prop :=
  exists c w d w', _run_prisma_validate E self c w = (Return (true, d), w').

(** What holds when the loop, entered with the locals [a], [cur], [em] in
    the world [w], is left with [r] in the world [w']. *)
Definition loop_post (E : Env) (self : SchemaManager) (c : string) (max : Z)
    (a : Z) (cur : string) (em : option string) (w : World)
    (r : outcome loop_exit) (w' : World) : Prop :=
  schema_manager w' = schema_manager w /\
  (checks w' <= checks w + Z.to_nat (max - a))%nat /\
  match r with
  | OutOfFuel => False
  | Raise e =>
      check_passes E self /\
      writes w' = S (writes w) /\
      same_except (temp_schema_path self) (fs w) (fs w')
  | Return (Returned res) =>
      check_passes E self /\
      success res = true /\ error res = "" /\
      a < attempts res <= max /\
      Z.of_nat (checks w') = Z.of_nat (checks w) + (attempts res - a) /\
      Z.of_nat (repairs w') = Z.of_nat (repairs w) + (attempts res - a - 1) /\
      if String.eqb (fixed_schema res) c
      then writes w' = writes w /\
           same_except (temp_schema_path self) (fs w) (fs w')
      else writes w' = S (writes w) /\
           exists f1,
             same_except (temp_schema_path self) (fs w) f1 /\
             Fs.write_text f1 (schema_path self) (fixed_schema res)
             = inr (fs w')
  | Return (Left a' cur' em') =>
      writes w' = writes w /\
      same_except (temp_schema_path self) (fs w) (fs w') /\
      if a <? max then
        exists d, em' = Some d /\
          a < a' <= max /\
          Z.of_nat (checks w') = Z.of_nat (checks w) + (a' - a) /\
          Z.of_nat (repairs w') = Z.of_nat (repairs w) + (a' - a - 1) /\
          (a' < max -> llm_client self = None)
      else a' = a /\ cur' = cur /\ em' = em /\ w' = w
  end.

(** What holds of a run of [validate_schema] on a non-empty candidate. *)
Definition run_post (E : Env) (self : SchemaManager) (c : string) (max : Z)
    (w : World) (r : outcome ValidationResult) (w' : World) : Prop :=
  schema_manager w' = schema_manager w /\
  (checks w' <= checks w + Z.to_nat max)%nat /\
  match r with
  | OutOfFuel => False
  | Raise e =>
      (max <= 0 /\ e = unbound_error_message /\ w' = w) \/
      (check_passes E self /\ writes w' = S (writes w) /\
       same_except (temp_schema_path self) (fs w) (fs w'))
  | Return res =>
      if success res then
        check_passes E self /\
        error res = "" /\
        0 < attempts res <= max /\
        Z.of_nat (checks w') = Z.of_nat (checks w) + attempts res /\
        Z.of_nat (repairs w') = Z.of_nat (repairs w) + (attempts res - 1) /\
        if String.eqb (fixed_schema res) c
        then writes w' = writes w /\
             same_except (temp_schema_path self) (fs w) (fs w')
        else writes w' = S (writes w) /\
             exists f1,
               same_except (temp_schema_path self) (fs w) f1 /\
               Fs.write_text f1 (schema_path self) (fixed_schema res)
               = inr (fs w')
      else
        writes w' = writes w /\
        same_except (temp_schema_path self) (fs w) (fs w') /\
        0 < attempts res <= max /\
        Z.of_nat (checks w') = Z.of_nat (checks w) + attempts res /\
        Z.of_nat (repairs w') = Z.of_nat (repairs w) + (attempts res - 1) /\
        (attempts res < max -> llm_client self = None)
  end.

(** Every call of the validator adapter reports a failure. *)
Definition always_fails (E : Env) (self : SchemaManager) : Prop :=
  forall cand w0, exists d w1,
    _run_prisma_validate E self cand w0 = (Return (false, d), w1).

(** The world in which the repair requester turns to the chat model. *)
Definition repair_world (c d : string) (w : World) : World :=
  mkWorld (fs w) (schema_manager w) (CallRepair c d :: trace w).

(** A string that does not begin with white space. *)
Definition starts_nonspace (s : string) : Prop :=
  match s with
  | "" => True
  | String x _ => PyStr.isspace x = false
  end.

(** [schema_manager.llm_client = client] *)
Definition with_llm_client (sm : SchemaManager) (client : LLMClient)
  : SchemaManager :=
  mkSchemaManager (schema_dir sm) (schema_file sm) (schema_path sm)
    (Some client).

(** The world in which the front end calls [validate_schema]. *)
Definition orchestration_world (client : LLMClient) (w : World) : World :=
  mkWorld (fs w) (with_llm_client (schema_manager w) client) (trace w).

(** ** The way to a directory *)

(** No regular file stands at [p] or at an ancestor of [p]. *)
Definition no_file_on (f : FS) (p : path) : Prop :=
  forall q, In q (Path.ancestors p ++ [p])%list -> Fs.is_file f q = false.

(** The same, as a test. *)
Definition clear_of_files (f : FS) (p : path) : bool :=
  negb (existsb (Fs.is_file f) (Path.ancestors p ++ [p])%list).

(** ** Example worlds *)

(** The fields of [SchemaManager()], the module-level instance. *)
Definition default_manager : SchemaManager :=
  mkSchemaManager ["prisma"] ["schema.prisma"] ["prisma"; "schema.prisma"] None.

(** A manager whose file name has two components, as
    [SchemaManager(schema_file="sub/schema.prisma")] has them. *)
Definition nested_manager : SchemaManager :=
  mkSchemaManager ["prisma"] ["sub"; "schema.prisma"]
    ["prisma"; "sub"; "schema.prisma"] None.

Definition a_client : LLMClient := mkLLMClient "gpt-4o-mini" None.

Definition manager_with_llm : SchemaManager :=
  mkSchemaManager ["prisma"] ["schema.prisma"] ["prisma"; "schema.prisma"]
    (Some a_client).

Definition an_agent : Agent.t := Agent.mk a_client [] "You are a helpful AI assistant.".

Definition a_state : Agent.AgentState :=
  Agent.mkState [] "a blog with posts" "" (Some None) ∅.

(** Nothing but the working directory. *)
Definition empty_fs : FS := mkFS ∅ ∅.

(** The directory [prisma] exists and is empty. *)
Definition prisma_fs : FS := mkFS {[ ["prisma"] ]} ∅.

(** The directory [prisma] holds an earlier schema. *)
Definition stored_fs : FS :=
  mkFS {[ ["prisma"] ]} {[ ["prisma"; "schema.prisma"] := "model Old { }" ]}.

Definition fresh_world (f : FS) (sm : SchemaManager) : World := mkWorld f sm [].

Definition fenced_reply : string :=
  PyStr.join PyStr.nl
    [ "Here is the schema:"; "```prisma"; "model A { id Int @id }"; "```"; "Done." ].

(** The [prisma] executable is not installed; the model answers. *)
Definition env_no_cli : Env :=
  mkEnv (fun _ _ => inl (Exn.mk Exn.FileNotFoundError
                           "[Errno 2] No such file or directory: 'prisma'"))
        (fun _ _ _ => Response fenced_reply)
        "postgresql://localhost/db"
        ["home"; "app"].


(** The validator rejects everything; the model answers. *)
Definition env_rejecting : Env :=
  mkEnv (fun _ _ => inr (mkCompleted 1 "" "missing id field"))
        (fun _ _ _ => Response fenced_reply)
        "postgresql://localhost/db"
        ["home"; "app"].

(** The validator accepts everything; the model answers. *)
Definition env_accepting : Env :=
  mkEnv (fun _ _ => inr (mkCompleted 0 "The schema is valid" ""))
        (fun _ _ _ => Response fenced_reply)
        "postgresql://localhost/db"
        ["home"; "app"].

(** The validator accepts exactly the schema of [fenced_reply]. *)
Definition env_accepting_fixed : Env :=
  mkEnv (fun w _ =>
           if bool_decide (files (fs w) !! ["prisma"; "temp_schema.prisma"]
                           = Some "model A { id Int @id }")
           then inr (mkCompleted 0 "The schema is valid" "")
           else inr (mkCompleted 1 "" "missing id field"))
        (fun _ _ _ => Response fenced_reply)
        "postgresql://localhost/db"
        ["home"; "app"].

(** The validator rejects everything and the model cannot be reached. *)
Definition env_llm_down : Env :=
  mkEnv (fun _ _ => inr (mkCompleted 1 "" "missing id field"))
        (fun _ _ _ => InvokeRaises (Exn.mk Exn.ConnectionError "Connection error."))
        "postgresql://localhost/db"
        ["home"; "app"].

(** * Vocabulary of the further properties *)

(** ** Lines and fences *)

(** A line on which [fence_step] toggles. *)
Definition is_fence_line (line : string) : bool :=
  PyStr.startswith fence (PyStr.strip line).

(** A line without a line feed in it that is no fence line, and one that
    is a fence line. *)
Definition plain_line (line : string) : bool :=
  negb (PyStr.contains PyStr.nl line) && negb (is_fence_line line).
Definition toggle_line (line : string) : bool :=
  negb (PyStr.contains PyStr.nl line) && is_fence_line line.

(** ** How the loop is left, the front end, messages and driver calls *)

(** How the loop can be left, told by the calls that decide it: a result
    returned from inside the loop follows a validator call that passed on
    the returned candidate; leaving the loop after at least one turn
    follows a validator call that failed on the current candidate; and an
    exception is one raised by [set_schema] on a candidate, other than the
    initial one, on which the validator has just passed. *)
Definition loop_outcome (E : Env) (self : SchemaManager) (c : string)
    (max a : Z) (cur : string) (em : option string) (w : World)
    (r : outcome loop_exit) (w' : World) : Prop :=
  match r with
  | Return (Returned res) =>
      success res = true /\
      exists w0 w1,
        _run_prisma_validate E self (fixed_schema res) w0
        = (Return (true, error res), w1)
  | Return (Left a' cur' em') =>
      (a < max ->
       exists d w0 w1,
         em' = Some d /\
         _run_prisma_validate E self cur' w0 = (Return (false, d), w1)) /\
      (max <= a -> em' = em /\ w' = w)
  | Raise e =>
      exists cur0 d w00 w0,
        _run_prisma_validate E self cur0 w00 = (Return (true, d), w0) /\
        set_schema self cur0 w0 = (Raise e, w') /\
        cur0 <> c
  | OutOfFuel => True
  end.

(** The state after an exception in [_process_input]. *)
Definition front_error (state : Agent.AgentState) (e : exn)
  : Agent.AgentState :=
  Agent.set_response
    (Agent.set_error (Agent.del_error state) (Some (Exn.str e)))
    ("I encountered an error while generating the schema: " +:+ Exn.str e).

(** The messages of the generation request. *)
Definition generation_messages (E : Env) (user_input : string)
  : list BaseMessage :=
  [SystemMessage (schema_system_message E); HumanMessage (schema_prompt user_input)].

(** The world in which the chat model is asked for a schema. *)
Definition generation_world (E : Env) (agent : Agent.t)
    (state : Agent.AgentState) (w : World) : World :=
  mkWorld (fs w) (schema_manager w)
    (LLMInvoke (Agent.llm_client agent)
       (generation_messages E (Agent.user_input state)) :: trace w).

Definition is_system (m : BaseMessage) : bool :=
  match m with SystemMessage _ => true | _ => false end.

(** The opening of the message list: the system message, when there is a
    non-empty one. *)
Definition system_part (system_message : option string) : list BaseMessage :=
  match system_message with
  | Some s => if PyStr.truthy s then [SystemMessage s] else []
  | None => []
  end.

(** The message that an entry of the history stands for: a
    [HumanMessage] of its content for the role [user], an [AIMessage] of
    its content for the role [assistant], none for any other role. *)
Definition entry_message (msg : gmap string string) : option BaseMessage :=
  match msg !! "role" with
  | Some role =>
      if String.eqb role "user" then HumanMessage <$> msg !! "content"
      else if String.eqb role "assistant" then AIMessage <$> msg !! "content"
      else None
  | None => None
  end.

(** An entry of the history that the loop can read: it has a role and,
    when the role is [user] or [assistant], a content. *)
Definition entry_ok (msg : gmap string string) : bool :=
  match msg !! "role" with
  | None => false
  | Some role =>
      if String.eqb role "user" || String.eqb role "assistant"
      then bool_decide (is_Some (msg !! "content"))
      else true
  end.

(** The calls that only open a cursor, run a statement, fetch and close
    the cursor. *)
Definition cursor_call {V} (c : @Db.call V) : bool :=
  match c with
  | Db.OpenCursor _ _ | Db.Execute _ _ _ | Db.FetchAll _ | Db.CloseCursor _ =>
      true
  | _ => false
  end.

(** * Properties *)

(** ** File systems that agree except at one path *)

Lemma same_except_refl p f : same_except p f f.
Proof. split; auto. Qed.

Lemma same_except_trans p f1 f2 f3 :
  same_except p f1 f2 -> same_except p f2 f3 -> same_except p f1 f3.
Proof.
  intros [D1 F1] [D2 F2]. split; [congruence|].
  intros q Hq. rewrite F2, F1; auto.
Qed.

(** Unfold the monad's operations down to functions on worlds. *)
Ltac run_monad :=
  repeat (progress (unfold try_except, note, fs_update, fs_query, get_fs,
                      put_fs, raise, run_process, when, ret, out_of_fuel,
                      bind;
                    cbn [fs schema_manager trace])).

(** ** The validator adapter, case by case *)

Lemma written_path_exists f p c f1 :
  Fs.write_text f p c = inr f1 ->
  Fs.is_dir f1 p = false /\ files f1 !! p = Some c /\ dirs f1 = dirs f.
Proof.
  unfold Fs.write_text. destruct (Fs.is_dir f p) eqn:Hd; [discriminate|].
  destruct (Fs.parent_error f p); [discriminate|].
  intros [= <-]. simpl. split; [exact Hd|]. split; [|reflexivity].
  apply lookup_insert_eq.
Qed.

Lemma run_prisma_validate_eq E self c w :
  _run_prisma_validate E self c w =
  match Fs.write_text (fs w) (temp_schema_path self) c with
  | inl e =>
      (Return (except_result e),
       mkWorld (fs w) (schema_manager w) (CallCheck c :: trace w))
  | inr f1 =>
      let w1 := launch_world E self c f1 w in
      match subprocess_run E w1 (validate_argv E self) with
      | inl e => (Return (except_result e), w1)
      | inr r =>
          (Return (completed_result r),
           mkWorld (mkFS (dirs f1) (delete (temp_schema_path self) (files f1)))
                   (schema_manager w) (trace w1))
      end
  end.
Proof.
  destruct w as [f sm t].
  unfold _run_prisma_validate, launch_world. run_monad.
  destruct (Fs.write_text f (temp_schema_path self) c) as [e|f1] eqn:Hw;
    run_monad.
  - unfold except_result. destruct (Exn.isinstance e _); reflexivity.
  - fold (validate_argv E self).
    destruct (subprocess_run E _ _) as [e|r]; run_monad.
    + unfold except_result. destruct (Exn.isinstance e _); reflexivity.
    + destruct (written_path_exists _ _ _ _ Hw) as (Hd & Hf & _).
      unfold Fs.path_exists, Fs.is_file. rewrite Hd, Hf.
      rewrite bool_decide_eq_true_2 by eauto. cbn [negb andb orb].
      run_monad. unfold Fs.unlink. rewrite Hd, Hf. run_monad.
      unfold completed_result. destruct (returncode r =? 0); reflexivity.
Qed.

Lemma write_text_same_except f p c f1 :
  Fs.write_text f p c = inr f1 -> same_except p f f1.
Proof.
  unfold Fs.write_text. destruct (Fs.is_dir f p); [discriminate|].
  destruct (Fs.parent_error f p); [discriminate|].
  intros [= <-]. split; [reflexivity|].
  intros q Hq. simpl. apply lookup_insert_ne. congruence.
Qed.

(** The adapter always returns; it adds one validator call to the trace and
    touches nothing but the temporary file. *)
Lemma run_prisma_validate_returns E self c w :
  exists passed diag w',
    _run_prisma_validate E self c w = (Return (passed, diag), w') /\
    schema_manager w' = schema_manager w /\
    checks w' = S (checks w) /\
    repairs w' = repairs w /\
    writes w' = writes w /\
    same_except (temp_schema_path self) (fs w) (fs w') /\
    (passed = true -> diag = "").
Proof.
  rewrite run_prisma_validate_eq.
  destruct (Fs.write_text (fs w) (temp_schema_path self) c) as [e|f1] eqn:Hw.
  - exists (fst (except_result e)), (snd (except_result e)).
    eexists. rewrite <- surjective_pairing. split; [reflexivity|].
    repeat split; try reflexivity.
    unfold except_result. destruct (Exn.isinstance e _); discriminate.
  - pose proof (write_text_same_except _ _ _ _ Hw) as [Hdirs Hfiles].
    cbv zeta. destruct (subprocess_run E _ _) as [e|r].
    + exists (fst (except_result e)), (snd (except_result e)).
      eexists. rewrite <- surjective_pairing. split; [reflexivity|].
      repeat split; try reflexivity; try assumption.
      unfold except_result. destruct (Exn.isinstance e _); discriminate.
    + exists (fst (completed_result r)), (snd (completed_result r)).
      eexists. rewrite <- surjective_pairing. split; [reflexivity|].
      repeat split; try reflexivity; try assumption.
      * intros q Hq. simpl. rewrite lookup_delete_ne by congruence. auto.
      * unfold completed_result. destruct (returncode r =? 0); simpl;
          [reflexivity | discriminate].
Qed.

(** ** The repair requester, case by case *)

Lemma generate_response_eq E client msgs w :
  generate_response E client msgs w =
  let w1 := mkWorld (fs w) (schema_manager w)
              (LLMInvoke client msgs :: trace w) in
  match llm_invoke E w1 client msgs with
  | InvokeRaises e => (Raise e, w1)
  | NoResponse => (Return "", w1)
  | Response content => (Return content, w1)
  end.
Proof. destruct w. reflexivity. Qed.

Lemma fix_schema_with_llm_eq E self c d w :
  _fix_schema_with_llm E self c d w =
  let w0 := mkWorld (fs w) (schema_manager w) (CallRepair c d :: trace w) in
  match llm_client self with
  | None => (Return c, w0)
  | Some client =>
      let w1 := mkWorld (fs w) (schema_manager w)
                  (LLMInvoke client (fix_messages c d) :: trace w0) in
      match llm_invoke E w1 client (fix_messages c d) with
      | InvokeRaises e => (Return c, w1)
      | NoResponse => (Return (strip_fences ""), w1)
      | Response content => (Return (strip_fences content), w1)
      end
  end.
Proof.
  destruct w as [f sm t]. unfold _fix_schema_with_llm. run_monad.
  destruct (llm_client self) as [client|]; [|reflexivity].
  run_monad. unfold chat_completion.
  change (PyStr.truthy fix_system_message) with true. cbv iota.
  change (([] ++ [SystemMessage fix_system_message])
          ++ [HumanMessage (fix_prompt c d)])%list with (fix_messages c d).
  rewrite generate_response_eq. cbn [fs schema_manager trace]. cbv zeta.
  destruct (llm_invoke E _ client (fix_messages c d)); reflexivity.
Qed.

(** The repair requester always returns; it adds one repair call to the
    trace and leaves the file system alone. *)
Lemma fix_schema_with_llm_returns E self c d w :
  exists s w',
    _fix_schema_with_llm E self c d w = (Return s, w') /\
    schema_manager w' = schema_manager w /\
    checks w' = checks w /\
    repairs w' = S (repairs w) /\
    writes w' = writes w /\
    fs w' = fs w.
Proof.
  rewrite fix_schema_with_llm_eq. cbv zeta.
  destruct (llm_client self) as [client|].
  - destruct (llm_invoke E _ client _); eexists _, _;
      (split; [reflexivity|]); repeat split.
  - eexists _, _. split; [reflexivity|]. repeat split.
Qed.

(** ** The artifact store, case by case *)

Lemma set_schema_eq self c w :
  set_schema self c w =
  let t := CallSetSchema c :: trace w in
  match Fs.write_text (fs w) (schema_path self) c with
  | inl e => (Raise e, mkWorld (fs w) (schema_manager w) t)
  | inr f' => (Return tt, mkWorld f' (schema_manager w) t)
  end.
Proof.
  destruct w as [f sm t]. unfold set_schema. run_monad.
  destruct (Fs.write_text f (schema_path self) c); reflexivity.
Qed.

Lemma get_schema_eq self w :
  get_schema self w =
  if Fs.path_exists (fs w) (schema_path self) then
    match Fs.read_text (fs w) (schema_path self) with
    | inl e => (Raise e, w)
    | inr c => (Return c, w)
    end
  else (Return "", w).
Proof.
  destruct w as [f sm t]. unfold get_schema. run_monad.
  destruct (Fs.path_exists f (schema_path self)); cbn [negb]; [|reflexivity].
  run_monad. destruct (Fs.read_text f (schema_path self)); reflexivity.
Qed.

(** After a write at the schema path, [get_schema] gives what was
    written, read in text mode. *)
Lemma get_schema_after_write f1 self X w' :
  Fs.write_text f1 (schema_path self) X = inr (fs w') ->
  get_schema self w' = (Return (Fs.universal_newlines X), w').
Proof.
  intros Hw. rewrite get_schema_eq.
  destruct (written_path_exists _ _ _ _ Hw) as (Hd & Hf & _).
  unfold Fs.path_exists, Fs.is_file, Fs.read_text. rewrite Hd, Hf.
  rewrite bool_decide_eq_true_2 by eauto. reflexivity.
Qed.

(** ** The retry loop *)

Lemma validate_loop_spec E self c max fuel :
  forall a cur em w,
    (Z.to_nat (max - a) < fuel)%nat ->
    exists r w',
      validate_loop E fuel self c max a cur em w = (r, w') /\
      loop_post E self c max a cur em w r w'.
Proof.
  induction fuel as [|fuel IH]; intros a cur em w Hfuel; [lia|].
  cbn [validate_loop].
  destruct (Z.ltb_spec a max) as [Hlt|Hge].
  2:{ eexists _, _. split; [reflexivity|]. unfold loop_post.
      split; [reflexivity|]. split; [lia|].
      split; [reflexivity|]. split; [apply same_except_refl|].
      destruct (Z.ltb_spec a max); [lia|]. auto. }
  destruct (run_prisma_validate_returns E self cur w)
    as (passed & diag & w1 & Hrun & Hsm1 & Hc1 & Hr1 & Hw1 & Hfs1 & _).
  unfold bind at 1. rewrite Hrun.
  destruct passed.
  - (* the validator passes: the [return] inside the loop *)
    assert (Hpass : check_passes E self) by (eexists _, _, _, _; exact Hrun).
    destruct (String.eqb cur c) eqn:Heq; cbn [negb when].
    + run_monad. eexists _, _. split; [reflexivity|]. unfold loop_post.
      split; [assumption|]. split; [lia|]. cbn [success error attempts fixed_schema].
      rewrite Heq.
      repeat (split; [first [assumption|reflexivity|lia]|]). exact Hfs1.
    + unfold bind. rewrite set_schema_eq. cbv zeta.
      destruct (Fs.write_text (fs w1) (schema_path self) cur) as [e|f'] eqn:Hwr.
      * eexists _, _. split; [reflexivity|]. unfold loop_post.
        cbn [schema_manager fs trace].
        split; [assumption|]. split; [unfold checks in *; simpl; lia|].
        split; [assumption|].
        split; [unfold writes in *; simpl; lia|]. exact Hfs1.
      * run_monad. eexists _, _. split; [reflexivity|]. unfold loop_post.
        cbn [schema_manager fs trace success error attempts fixed_schema].
        rewrite Heq.
        split; [assumption|]. split; [unfold checks in *; simpl; lia|].
        split; [assumption|].
        split; [reflexivity|]. split; [reflexivity|]. split; [lia|].
        split; [unfold checks in *; simpl; lia|].
        split; [unfold repairs in *; simpl; lia|].
        split; [unfold writes in *; simpl; lia|].
        exists (fs w1). split; assumption.
  - (* the validator fails *)
    destruct ((a + 1 <? max) && bool_decide (is_Some (llm_client self)))
      eqn:Hguard.
    + apply andb_true_iff in Hguard as [Hlt' Hllm].
      apply Z.ltb_lt in Hlt'.
      destruct (fix_schema_with_llm_returns E self cur diag w1)
        as (s & w2 & Hfix & Hsm2 & Hc2 & Hr2 & Hw2 & Hfs2).
      unfold bind. rewrite Hfix.
      destruct (IH (a + 1) s (Some diag) w2) as (r & w' & Hloop & Hpost);
        [lia|].
      exists r, w'. split; [exact Hloop|].
      unfold loop_post in *.
      destruct Hpost as (Hsm' & Hcb & Hpost).
      split; [congruence|]. split; [lia|].
      assert (Hfs12 : same_except (temp_schema_path self) (fs w) (fs w2))
        by (rewrite Hfs2; exact Hfs1).
      destruct r as [[res|a' cur' em']|e|].
      * destruct Hpost as (Hp & Hs & He & Ha & Hck & Hrp & Hwr).
        repeat (split; [first [assumption|lia]|]).
        destruct (String.eqb (fixed_schema res) c).
        -- destruct Hwr as [Hwr Hsame]. split; [lia|].
           eapply same_except_trans; eassumption.
        -- destruct Hwr as [Hwr (f1 & Hsame & Hwt)]. split; [lia|].
           exists f1. split; [|exact Hwt].
           eapply same_except_trans; eassumption.
      * destruct Hpost as (Hwr & Hsame & Hpost).
        split; [lia|]. split; [eapply same_except_trans; eassumption|].
        destruct (Z.ltb_spec (a + 1) max); [|lia].
        destruct (Z.ltb_spec a max); [|lia].
        destruct Hpost as (d & Hem & Ha & Hck & Hrp & Hno).
        exists d. repeat (split; [first [assumption|lia]|]). exact Hno.
      * destruct Hpost as (Hp & Hwr & Hsame).
        split; [assumption|]. split; [lia|].
        eapply same_except_trans; eassumption.
      * contradiction.
    + run_monad. eexists _, _. split; [reflexivity|]. unfold loop_post.
      split; [assumption|]. split; [lia|]. split; [assumption|].
      split; [assumption|].
      destruct (Z.ltb_spec a max); [|lia].
      exists diag. repeat (split; [first [reflexivity|lia]|]).
      intros Hlt'. apply andb_false_iff in Hguard as [Hg|Hg].
      * apply Z.ltb_ge in Hg. lia.
      * apply bool_decide_eq_false in Hg.
        destruct (llm_client self); [|reflexivity].
        exfalso. apply Hg. eauto.
Qed.

(** ** The orchestrator as a whole *)

Lemma validate_schema_empty E self max w :
  validate_schema E self "" max w =
  (Return (mkResult false "Schema content is empty" "" 0), w).
Proof. reflexivity. Qed.

Lemma validate_schema_spec E self c max w :
  PyStr.truthy c = true ->
  exists r w',
    validate_schema E self c max w = (r, w') /\ run_post E self c max w r w'.
Proof.
  intros Hc. unfold validate_schema. rewrite Hc. cbn [negb]. unfold bind.
  destruct (validate_loop_spec E self c max (S (Z.to_nat max)) 0 c None w)
    as (r & w' & Hloop & Hsm & Hcb & Hpost); [lia|].
  rewrite Hloop. rewrite Z.sub_0_r in Hcb.
  destruct r as [[res|a' cur' em']|e|].
  - run_monad. eexists _, _. split; [reflexivity|].
    destruct Hpost as (Hp & Hs & He & Ha & Hck & Hrp & Hwr).
    unfold run_post. rewrite Hs.
    repeat (split; [first [assumption|lia]|]). exact Hwr.
  - destruct Hpost as (Hwr & Hsame & Hpost).
    destruct (Z.ltb_spec 0 max) as [Hlt|Hge].
    + destruct Hpost as (d & -> & Ha & Hck & Hrp & Hno).
      run_monad. eexists _, _. split; [reflexivity|].
      unfold run_post. cbn [success attempts].
      repeat (split; [first [assumption|lia]|]). exact Hno.
    + destruct Hpost as (-> & -> & -> & ->).
      run_monad. eexists _, _. split; [reflexivity|].
      unfold run_post. split; [reflexivity|]. split; [lia|]. left. auto.
  - eexists _, _. split; [reflexivity|].
    unfold run_post. split; [assumption|]. split; [lia|]. right. exact Hpost.
  - contradiction.
Qed.

(** [validate_schema] is total: the fuel given to its loop never runs
    out, whatever the arguments and the outside world. *)
Lemma validate_schema_total E self c max w :
  fst (validate_schema E self c max w) <> OutOfFuel.
Proof.
  destruct (PyStr.truthy c) eqn:Hc.
  - destruct (validate_schema_spec E self c max w Hc)
      as (r & w' & -> & _ & _ & Hpost).
    destruct r; simpl; [discriminate..|contradiction].
  - destruct c; [|discriminate]. discriminate.
Qed.

(** ** The claims about the orchestrator *)

Lemma nonzero_exit_always_fails E self :
  (forall w argv r, subprocess_run E w argv = inr r -> returncode r <> 0) ->
  always_fails E self.
Proof.
  intros Hnz cand w0. rewrite run_prisma_validate_eq.
  destruct (Fs.write_text _ _ _) as [e|f1].
  - unfold except_result. destruct (Exn.isinstance e _); eauto.
  - cbv zeta. destruct (subprocess_run E _ _) as [e|r] eqn:Hr.
    + unfold except_result. destruct (Exn.isinstance e _); eauto.
    + unfold completed_result. apply Hnz in Hr.
      destruct (Z.eqb_spec (returncode r) 0); [contradiction|eauto].
Qed.

(** C1: for [max_retries >= 1] and a non-empty candidate, [validate_schema]
    calls the validator adapter at most [max_retries] times.  When every
    validator call fails and an LLM client is configured, it returns
    [success = False] with [attempts = max_retries] after exactly
    [max_retries - 1] calls of the repair requester.  When no LLM client
    is configured and the validator fails, it returns after exactly one
    attempt and one validator call, without any repair call. *)
Theorem C1_attempts_and_repairs E self c max w :
  1 <= max ->
  PyStr.truthy c = true ->
  (checks (snd (validate_schema E self c max w))
   <= checks w + Z.to_nat max)%nat /\
  (always_fails E self -> is_Some (llm_client self) ->
   exists res w',
     validate_schema E self c max w = (Return res, w') /\
     success res = false /\ attempts res = max /\
     Z.of_nat (repairs w') = Z.of_nat (repairs w) + (max - 1)) /\
  (llm_client self = None ->
   forall d w1,
     _run_prisma_validate E self c w = (Return (false, d), w1) ->
     validate_schema E self c max w = (Return (mkResult false d c 1), w1) /\
     repairs w1 = repairs w /\ checks w1 = S (checks w)).
Proof.
  intros Hmax Hc.
  destruct (validate_schema_spec E self c max w Hc)
    as (r & w' & Hrun & Hsm & Hcb & Hpost).
  split; [rewrite Hrun; exact Hcb|]. split.
  - intros Hfail Hllm. rewrite Hrun.
    assert (Hno : ~ check_passes E self).
    { intros (c0 & w0 & d0 & w0' & Hp).
      destruct (Hfail c0 w0) as (d1 & w1 & Hf). congruence. }
    destruct r as [res|e|]; [|destruct Hpost as [(?&_)|(?&_)]; [lia|tauto]
                             |contradiction].
    exists res, w'. split; [reflexivity|].
    destruct (success res); [destruct Hpost as (? & _); tauto|].
    destruct Hpost as (_ & _ & Ha & _ & Hrp & Hnone).
    split; [reflexivity|].
    assert (attempts res = max) as Heq.
    { destruct (Z.lt_ge_cases (attempts res) max) as [Hlt|]; [|lia].
      apply Hnone in Hlt. rewrite Hlt in Hllm. destruct Hllm; discriminate. }
    split; [exact Heq|]. rewrite <- Heq. exact Hrp.
  - intros Hnone d w1 Hchk.
    destruct (run_prisma_validate_returns E self c w)
      as (p & d' & w1' & Hchk' & _ & Hck & Hrp & _).
    rewrite Hchk in Hchk'. injection Hchk' as <- <- <-.
    split; [|split; assumption].
    unfold validate_schema. rewrite Hc. cbn [negb validate_loop].
    destruct (Z.ltb_spec 0 max); [|lia].
    unfold bind. rewrite Hchk, Hnone.
    rewrite bool_decide_eq_false_2 by (intros [? ?]; discriminate).
    rewrite andb_false_r. reflexivity.
Qed.

Lemma C1_attempts_and_repairs_witness :
  1 <= 3 /\
  PyStr.truthy "model A { }" = true /\
  exists res w',
    validate_schema env_rejecting manager_with_llm "model A { }" 3
      (fresh_world prisma_fs manager_with_llm) = (Return res, w') /\
    success res = false /\ attempts res = 3 /\
    Z.of_nat (repairs w') = 0 + (3 - 1).
Proof.
  split; [lia|]. split; [reflexivity|].
  apply (C1_attempts_and_repairs env_rejecting manager_with_llm "model A { }"
           3 (fresh_world prisma_fs manager_with_llm));
    [lia | reflexivity | | simpl; eauto].
  apply nonzero_exit_always_fails. intros w argv r [= <-]. discriminate.
Defined.

(** C2: every result returned by [validate_schema] with [success = True]
    has an empty [error] and [attempts >= 1]; and for the empty candidate,
    whatever [max_retries] is, the result is [success = False] with the
    error "Schema content is empty" and [attempts = 0], the world being
    left as it was (so without any validator call). *)
Theorem C2_result_invariant E self c max w :
  (forall res w',
     validate_schema E self c max w = (Return res, w') ->
     success res = true -> error res = "" /\ 1 <= attempts res) /\
  validate_schema E self "" max w =
    (Return (mkResult false "Schema content is empty" "" 0), w).
Proof.
  split; [|apply validate_schema_empty].
  intros res w' Hrun Hs.
  destruct (PyStr.truthy c) eqn:Hc.
  - destruct (validate_schema_spec E self c max w Hc)
      as (r & w'' & Hrun' & _ & _ & Hpost).
    rewrite Hrun in Hrun'. injection Hrun' as <- <-.
    unfold run_post in Hpost. rewrite Hs in Hpost.
    destruct Hpost as (_ & He & Ha & _). split; [exact He|lia].
  - destruct c; [|discriminate].
    rewrite validate_schema_empty in Hrun. injection Hrun as <- _.
    discriminate.
Qed.

Lemma C2_result_invariant_witness :
  exists res w',
    validate_schema env_accepting default_manager "model A { }" 3
      (fresh_world prisma_fs default_manager) = (Return res, w') /\
    success res = true /\ error res = "" /\ 1 <= attempts res.
Proof.
  eexists _, _. split; [vm_compute; reflexivity|]. split; [reflexivity|].
  eapply (C2_result_invariant env_accepting default_manager "model A { }" 3
            (fresh_world prisma_fs default_manager));
    [vm_compute; reflexivity | reflexivity].
Defined.

(** C10: called with a non-empty candidate and [max_retries <= 0],
    [validate_schema] never enters its loop (the world is left as it was)
    and raises [UnboundLocalError], a [NameError], at the final [return],
    which reads [error_message] before any assignment; hence whenever
    [validate_schema] returns a result for a non-empty candidate,
    [max_retries >= 1]. *)
Theorem C10_nonpositive_max_retries_raises E self c max w :
  PyStr.truthy c = true ->
  (max <= 0 ->
   validate_schema E self c max w = (Raise unbound_error_message, w) /\
   Exn.isinstance unbound_error_message Exn.NameError = true) /\
  (forall res w',
     validate_schema E self c max w = (Return res, w') -> 1 <= max).
Proof.
  intros Hc.
  assert (Hraise : max <= 0 ->
            validate_schema E self c max w = (Raise unbound_error_message, w)).
  { intros Hmax. unfold validate_schema. rewrite Hc.
    cbn [negb validate_loop]. unfold bind.
    destruct (Z.ltb_spec 0 max); [lia|]. reflexivity. }
  split.
  - intros Hmax. split; [auto|reflexivity].
  - intros res w' Hrun.
    destruct (Z.le_gt_cases max 0) as [Hle|]; [|lia].
    rewrite (Hraise Hle) in Hrun. discriminate.
Qed.

Lemma C10_nonpositive_max_retries_raises_witness :
  PyStr.truthy "model A { }" = true /\
  0 <= 0 /\
  validate_schema env_accepting default_manager "model A { }" 0
    (fresh_world prisma_fs default_manager)
  = (Raise unbound_error_message, fresh_world prisma_fs default_manager).
Proof.
  split; [reflexivity|]. split; [lia|].
  apply (C10_nonpositive_max_retries_raises env_accepting default_manager
           "model A { }" 0 (fresh_world prisma_fs default_manager));
    [reflexivity | lia].
Defined.

(** ** The claims about the validator adapter *)

(** When the process completes, whatever its exit status, the temporary
    file is gone when the adapter returns. *)
Lemma temp_file_removed_when_process_completes E self c w f1 r :
  Fs.write_text (fs w) (temp_schema_path self) c = inr f1 ->
  subprocess_run E (launch_world E self c f1 w) (validate_argv E self) = inr r ->
  files (fs (snd (_run_prisma_validate E self c w))) !! temp_schema_path self
  = None.
Proof.
  intros Hw Hr. rewrite run_prisma_validate_eq, Hw. cbv zeta. rewrite Hr.
  simpl. apply lookup_delete_eq.
Qed.

(** When launching the process raises, the temporary file stays, holding
    the candidate. *)
Lemma temp_file_left_when_launch_raises E self c w f1 e :
  Fs.write_text (fs w) (temp_schema_path self) c = inr f1 ->
  subprocess_run E (launch_world E self c f1 w) (validate_argv E self) = inl e ->
  files (fs (snd (_run_prisma_validate E self c w))) !! temp_schema_path self
  = Some c.
Proof.
  intros Hw Hr. rewrite run_prisma_validate_eq, Hw. cbv zeta. rewrite Hr.
  simpl. eapply written_path_exists. exact Hw.
Qed.

(** C3 (fails in the code): with the [prisma] executable missing, the
    adapter returns the "CLI not found" failure and the temporary file
    [prisma/temp_schema.prisma] is still there, holding the candidate: the
    clean-up stands after [subprocess.run] inside the [try] and is skipped
    when that call raises. *)
Theorem C3_temp_file_left_behind :
  let w := fresh_world prisma_fs default_manager in
  let out := _run_prisma_validate env_no_cli default_manager "model A { }" w in
  fst out = Return (false, cli_not_found) /\
  files (fs w) !! temp_schema_path default_manager = None /\
  files (fs (snd out)) !! temp_schema_path default_manager
  = Some "model A { }" /\
  Fs.path_exists (fs (snd out)) (temp_schema_path default_manager) = true.
Proof. vm_compute. repeat split. Qed.





(** ** The claims about the repair requester *)

(** C6: without an LLM client, [_fix_schema_with_llm] returns the
    candidate as it is, without calling anything; when the call of the LLM
    client raises, it returns the candidate as it is; and it never
    raises. *)
Theorem C6_repair_never_fatal E self c d w :
  (llm_client self = None ->
   _fix_schema_with_llm E self c d w = (Return c, repair_world c d w)) /\
  (forall client e w1,
     llm_client self = Some client ->
     chat_completion E client (fix_prompt c d) (Some fix_system_message)
       (repair_world c d w) = (Raise e, w1) ->
     _fix_schema_with_llm E self c d w = (Return c, w1)) /\
  (forall e w', _fix_schema_with_llm E self c d w <> (Raise e, w')).
Proof.
  split; [|split].
  - intros Hnone. rewrite fix_schema_with_llm_eq, Hnone. reflexivity.
  - intros client e w1 Hsome Hchat.
    destruct w as [f sm t]. unfold repair_world in Hchat.
    cbn [fs schema_manager trace] in Hchat.
    unfold _fix_schema_with_llm. rewrite Hsome. run_monad.
    rewrite Hchat. reflexivity.
  - intros e w' Hraise.
    destruct (fix_schema_with_llm_returns E self c d w) as (s & w1 & Hret & _).
    congruence.
Qed.

Lemma C6_repair_never_fatal_witness :
  exists w1,
    _fix_schema_with_llm env_llm_down manager_with_llm "model A { }"
      "missing id field" (fresh_world prisma_fs manager_with_llm)
    = (Return "model A { }", w1).
Proof.
  eexists.
  eapply (C6_repair_never_fatal env_llm_down manager_with_llm "model A { }"
            "missing id field" (fresh_world prisma_fs manager_with_llm));
    [reflexivity | vm_compute; reflexivity].
Defined.

(** ** The claims about the artifact store *)

Lemma universal_newlines_without_cr X :
  PyStr.contains PyStr.cr X = false -> Fs.universal_newlines X = X.
Proof.
  induction X as [|a X IH]; [reflexivity|].
  cbn [PyStr.contains String.prefix PyStr.cr]. intros Hno.
  apply orb_false_iff in Hno as [Hpre Hrest].
  cbn [Fs.universal_newlines].
  destruct (Ascii.eqb_spec a "013") as [->|Hne].
  - destruct X; discriminate.
  - f_equal. apply IH. exact Hrest.
Qed.

(** C7, as the code has it: whenever [set_schema X] returns, a following
    [get_schema] returns [X] as a text-mode read gives it, that is with
    every CR LF and every other CR turned into LF, hence exactly [X] for
    every [X] without a carriage return, the empty string included;
    [get_schema] returns the empty string when nothing exists at the
    schema path; and [get_schema] never raises [FileNotFoundError]. *)
Theorem C7_store_round_trip self X w :
  (forall w1,
     set_schema self X w = (Return tt, w1) ->
     get_schema self w1 = (Return (Fs.universal_newlines X), w1) /\
     (PyStr.contains PyStr.cr X = false ->
      get_schema self w1 = (Return X, w1))) /\
  (Fs.path_exists (fs w) (schema_path self) = false ->
   get_schema self w = (Return "", w)) /\
  (forall e w1,
     get_schema self w = (Raise e, w1) ->
     Exn.isinstance e Exn.FileNotFoundError = false).
Proof.
  split; [|split].
  - intros w1. rewrite set_schema_eq. cbv zeta.
    destruct (Fs.write_text (fs w) (schema_path self) X) as [e|f'] eqn:Hw;
      [discriminate|].
    intros [= <-].
    assert (Hget : get_schema self
                     (mkWorld f' (schema_manager w) (CallSetSchema X :: trace w))
                   = (Return (Fs.universal_newlines X),
                      mkWorld f' (schema_manager w)
                        (CallSetSchema X :: trace w))).
    { apply (get_schema_after_write (fs w)). exact Hw. }
    split; [exact Hget|].
    intros Hno. rewrite Hget, universal_newlines_without_cr by exact Hno.
    reflexivity.
  - intros Hno. rewrite get_schema_eq, Hno. reflexivity.
  - intros e w1. rewrite get_schema_eq.
    unfold Fs.path_exists, Fs.is_file, Fs.read_text.
    destruct (Fs.is_dir (fs w) (schema_path self)); cbn [negb andb orb].
    + intros [= <- _]. reflexivity.
    + destruct (files (fs w) !! schema_path self) as [x|] eqn:Hf.
      * rewrite bool_decide_eq_true_2 by eauto. discriminate.
      * rewrite bool_decide_eq_false_2 by (intros [? ?]; discriminate).
        discriminate.
Qed.

Lemma C7_store_round_trip_witness :
  let X := "model A {" +:+ PyStr.nl +:+ "  id Int @id" +:+ PyStr.nl +:+ "}" in
  let w := fresh_world stored_fs default_manager in
  (exists w1,
     set_schema default_manager X w = (Return tt, w1) /\
     get_schema default_manager w1 = (Return X, w1)) /\
  get_schema default_manager (fresh_world prisma_fs default_manager)
  = (Return "", fresh_world prisma_fs default_manager).
Proof.
  cbv zeta. split.
  - eexists. split; [vm_compute; reflexivity|].
    eapply (C7_store_round_trip default_manager
              ("model A {" +:+ PyStr.nl +:+ "  id Int @id" +:+ PyStr.nl +:+ "}")
              (fresh_world stored_fs default_manager));
      [vm_compute; reflexivity | vm_compute; reflexivity].
  - eapply (C7_store_round_trip default_manager ""
              (fresh_world prisma_fs default_manager)).
    vm_compute. reflexivity.
Defined.

(** C7, as the specification has it, fails: a schema with a carriage
    return in it is written as it is and read back with a line feed in
    its place. *)
Lemma C7_carriage_return_not_read_back :
  let X := "model A {" +:+ PyStr.cr +:+ "}" in
  let written := set_schema default_manager X
                   (fresh_world prisma_fs default_manager) in
  fst written = Return tt /\
  fst (get_schema default_manager (snd written))
  = Return ("model A {" +:+ PyStr.nl +:+ "}") /\
  fst (get_schema default_manager (snd written)) <> Return X.
Proof. vm_compute. repeat split. discriminate. Qed.

Lemma os_mkdir_files f p f' : Fs.os_mkdir f p = inr f' -> files f' = files f.
Proof.
  unfold Fs.os_mkdir. destruct (Fs.path_exists f p); [discriminate|].
  destruct (Fs.parent_error f p); [discriminate|]. intros [= <-]. reflexivity.
Qed.

Lemma os_mkdir_is_dir f p f' : Fs.os_mkdir f p = inr f' -> Fs.is_dir f' p = true.
Proof.
  unfold Fs.os_mkdir. destruct (Fs.path_exists f p); [discriminate|].
  destruct (Fs.parent_error f p); [discriminate|]. intros [= <-].
  unfold Fs.is_dir. simpl. apply orb_true_iff. right.
  apply bool_decide_eq_true. set_solver.
Qed.

Lemma mkdir_exist_ok_post f p r f' :
  Fs.mkdir_exist_ok f p r = inr f' ->
  (r = inr f') \/ (f' = f /\ Fs.is_dir f p = true).
Proof.
  unfold Fs.mkdir_exist_ok. destruct r as [e|f0]; [|intros [= <-]; auto].
  destruct (Fs.is_dir f p) eqn:Hd; [|discriminate]. intros [= <-]. auto.
Qed.

(** [mkdir(parents=True, exist_ok=True)], when it returns, has made [p] a
    directory and has left every file alone. *)
Lemma mkdir_parents_post n :
  forall f p f',
    Fs.mkdir_parents_upto n f p = inr f' ->
    Fs.is_dir f' p = true /\ files f' = files f.
Proof.
  induction n as [|n IH]; intros f p f'; cbn [Fs.mkdir_parents_upto];
    destruct (Fs.os_mkdir f p) as [e|f0] eqn:Hmk;
    try (intros [= <-]; split; [eapply os_mkdir_is_dir|eapply os_mkdir_files];
         eassumption).
  - destruct (Exn.isinstance e _).
    + destruct (bool_decide _); discriminate.
    + intros H. apply mkdir_exist_ok_post in H as [?|[-> ?]];
        [discriminate|auto].
  - destruct (Exn.isinstance e _).
    + destruct (bool_decide _); [discriminate|].
      destruct (Fs.mkdir_parents_upto n f (Path.parent p)) as [e'|f1] eqn:Hrec;
        [discriminate|].
      apply IH in Hrec as [_ Hfiles].
      intros H. apply mkdir_exist_ok_post in H as [H|[-> ?]].
      * split; [eapply os_mkdir_is_dir; eassumption|].
        apply os_mkdir_files in H. congruence.
      * auto.
    + intros H. apply mkdir_exist_ok_post in H as [?|[-> ?]];
        [discriminate|auto].
Qed.

Lemma parent_cons2 (x y : string) (r : path) :
  Path.parent (x :: y :: r) = x :: Path.parent (y :: r).
Proof. reflexivity. Qed.

Lemma ancestors_cons2 (x y : string) (r : path) :
  Path.ancestors (x :: y :: r) = [x] :: map (cons x) (Path.ancestors (y :: r)).
Proof. reflexivity. Qed.

(** The ancestors of a path are those of its parent, and its parent. *)
Lemma ancestors_parent (p : path) :
  Path.parent p <> [] ->
  Path.ancestors p = (Path.ancestors (Path.parent p) ++ [Path.parent p])%list.
Proof.
  induction p as [|x p IH]; [intros H; now contradiction H|].
  destruct p as [|y r]; [intros H; now contradiction H|].
  intros _. rewrite parent_cons2, ancestors_cons2.
  destruct r as [|z r']; [reflexivity|].
  rewrite IH by (rewrite parent_cons2; discriminate).
  rewrite map_app. rewrite (parent_cons2 y z r'), ancestors_cons2.
  reflexivity.
Qed.

Lemma parent_shorter (p : path) :
  p <> [] -> S (length (Path.parent p)) = length p.
Proof.
  intros Hp. destruct (exists_last Hp) as (q & a & ->).
  unfold Path.parent. rewrite removelast_last, length_app. simpl. lia.
Qed.

Lemma is_file_mono f f' q :
  files f' = files f -> dirs f ⊆ dirs f' ->
  Fs.is_file f q = false -> Fs.is_file f' q = false.
Proof.
  unfold Fs.is_file, Fs.is_dir. intros -> Hsub.
  destruct (bool_decide (q = [])); [reflexivity|]. cbn [orb].
  destruct (bool_decide (is_Some (files f !! q))); [|now rewrite !andb_false_r].
  rewrite !andb_true_r. intros Hd. apply negb_false_iff in Hd.
  apply negb_false_iff. apply bool_decide_eq_true in Hd.
  apply bool_decide_eq_true. set_solver.
Qed.

Lemma no_file_on_parent f p : no_file_on f p -> no_file_on f (Path.parent p).
Proof.
  intros H q Hq. destruct (decide (Path.parent p = [])) as [He|Hne].
  - rewrite He in Hq. simpl in Hq. destruct Hq as [<-|[]]. reflexivity.
  - apply H. rewrite (ancestors_parent p Hne). apply in_or_app. now left.
Qed.

Lemma no_file_on_mono f f' p :
  files f' = files f -> dirs f ⊆ dirs f' -> no_file_on f p -> no_file_on f' p.
Proof. intros Hf Hd H q Hq. eapply is_file_mono; eauto. Qed.

Lemma no_file_on_ancestors f p :
  no_file_on f p -> existsb (Fs.is_file f) (Path.ancestors p) = false.
Proof.
  intros H. apply not_true_is_false. intros Hex.
  apply existsb_exists in Hex as (q & Hq & Hfile).
  rewrite H in Hfile; [discriminate|]. apply in_or_app. now left.
Qed.

Lemma clear_of_files_no_file_on f p :
  clear_of_files f p = true -> no_file_on f p.
Proof.
  unfold clear_of_files. intros H q Hq. apply negb_true_iff in H.
  apply not_true_is_false. intros Hfile.
  assert (existsb (Fs.is_file f) (Path.ancestors p ++ [p])%list = true)
    by (apply existsb_exists; eauto).
  congruence.
Qed.

Lemma os_mkdir_with_parent f p :
  no_file_on f p -> Fs.is_dir f (Path.parent p) = true ->
  exists f', Fs.mkdir_exist_ok f p (Fs.os_mkdir f p) = inr f' /\
             Fs.is_dir f' p = true /\ files f' = files f /\
             dirs f ⊆ dirs f'.
Proof.
  intros Hno Hpar. unfold Fs.os_mkdir, Fs.path_exists.
  assert (Hfile : Fs.is_file f p = false)
    by (apply Hno, in_or_app; right; now left).
  rewrite Hfile, orb_false_r.
  destruct (Fs.is_dir f p) eqn:Hd.
  - cbn [Fs.mkdir_exist_ok]. rewrite Hd. exists f. auto.
  - unfold Fs.parent_error. rewrite (no_file_on_ancestors _ _ Hno), Hpar.
    cbn [Fs.mkdir_exist_ok]. eexists. split; [reflexivity|].
    split; [|split; [reflexivity|set_solver]].
    unfold Fs.is_dir. simpl. apply orb_true_iff. right.
    apply bool_decide_eq_true. set_solver.
Qed.

(** [mkdir(parents=True, exist_ok=True)] returns whenever no regular file
    is in its way, and makes the missing directories. *)
Lemma mkdir_parents_total n :
  forall f p,
    (length p <= n)%nat -> no_file_on f p ->
    exists f', Fs.mkdir_parents_upto n f p = inr f' /\
               Fs.is_dir f' p = true /\ files f' = files f /\
               dirs f ⊆ dirs f'.
Proof.
  induction n as [|n IH]; intros f p Hlen Hno.
  - destruct p; [|simpl in Hlen; lia]. exists f. repeat split; set_solver.
  - cbn [Fs.mkdir_parents_upto].
    assert (Hfile : Fs.is_file f p = false)
      by (apply Hno, in_or_app; right; now left).
    unfold Fs.os_mkdir at 1, Fs.path_exists. rewrite Hfile, orb_false_r.
    destruct (Fs.is_dir f p) eqn:Hdp.
    { change (Exn.isinstance (Fs.EEXIST p) Exn.FileNotFoundError) with false.
      cbn [Fs.mkdir_exist_ok]. rewrite Hdp. exists f. auto. }
    unfold Fs.parent_error. rewrite (no_file_on_ancestors _ _ Hno).
    destruct (Fs.is_dir f (Path.parent p)) eqn:Hpar.
    { eexists. split; [reflexivity|].
      split; [|split; [reflexivity|set_solver]].
      unfold Fs.is_dir. simpl. apply orb_true_iff. right.
      apply bool_decide_eq_true. set_solver. }
    change (Exn.isinstance (Fs.ENOENT p) Exn.FileNotFoundError) with true.
    cbv iota.
    assert (Hp : p <> []) by (intros ->; discriminate).
    pose proof (parent_shorter p Hp) as Hshort.
    rewrite bool_decide_eq_false_2 by (intros Heq; rewrite Heq in Hshort; lia).
    destruct (IH f (Path.parent p)) as (f1 & Hrec & Hd1 & Hf1 & Hsub1);
      [lia | apply no_file_on_parent; exact Hno |].
    rewrite Hrec.
    destruct (os_mkdir_with_parent f1 p) as (f' & Hmk & Hd & Hf & Hsub);
      [eapply no_file_on_mono; eassumption | exact Hd1 |].
    exists f'. split; [exact Hmk|]. split; [exact Hd|].
    split; [congruence|set_solver].
Qed.


Lemma parent_snoc (dir : path) (name : string) :
  Path.parent (dir ++ [name]) = dir.
Proof. unfold Path.parent. apply removelast_last. Qed.

Lemma parent_error_below_dir f dir name :
  no_file_on f dir -> Fs.is_dir f dir = true ->
  Fs.parent_error f (dir ++ [name]) = None.
Proof.
  intros Hno Hd. unfold Fs.parent_error. rewrite parent_snoc, Hd.
  destruct (decide (dir = [])) as [->|Hne]; [reflexivity|].
  rewrite ancestors_parent by (rewrite parent_snoc; exact Hne).
  rewrite parent_snoc.
  assert (Hex : existsb (Fs.is_file f) (Path.ancestors dir ++ [dir]) = false).
  { apply not_true_is_false. intros Hex.
    apply existsb_exists in Hex as (q & Hq & Hfile).
    rewrite (Hno q Hq) in Hfile. discriminate. }
  now rewrite Hex.
Qed.

(** C8, as the code has it: [set_schema] makes no directory.  It
    creates or wholly overwrites the file, which then holds exactly the
    content, every other file being left alone, when the parent directory
    of the schema path is there, no regular file stands at an ancestor of
    the schema path, and the schema path is not a directory itself; when
    that parent directory is absent, [set_schema] raises and the file
    system is left as it was.  For a file name of one component the
    parent directory of the schema path is the schema directory: then
    [set_schema] returns when the schema directory is there (no regular
    file standing at an ancestor of it) and raises when it is absent.  The
    schema directory, with its missing parents, is made by the constructor
    [__init__], which returns whenever no regular file stands at the
    directory or at one of its ancestors. *)
Theorem C8_write_needs_directory self X w :
  (Fs.is_dir (fs w) (Path.parent (schema_path self)) = true ->
   existsb (Fs.is_file (fs w)) (Path.ancestors (schema_path self)) = false ->
   Fs.is_dir (fs w) (schema_path self) = false ->
   exists w1,
     set_schema self X w = (Return tt, w1) /\
     files (fs w1) !! schema_path self = Some X /\
     same_except (schema_path self) (fs w) (fs w1)) /\
  (Fs.is_dir (fs w) (Path.parent (schema_path self)) = false ->
   exists e w1, set_schema self X w = (Raise e, w1) /\ fs w1 = fs w) /\
  (forall name,
     schema_path self = Path.div (schema_dir self) [name] ->
     (Fs.is_dir (fs w) (schema_dir self) = true ->
      clear_of_files (fs w) (schema_dir self) = true ->
      Fs.is_dir (fs w) (schema_path self) = false ->
      exists w1,
        set_schema self X w = (Return tt, w1) /\
        files (fs w1) !! schema_path self = Some X /\
        same_except (schema_path self) (fs w) (fs w1)) /\
     (Fs.is_dir (fs w) (schema_dir self) = false ->
      exists e w1, set_schema self X w = (Raise e, w1) /\ fs w1 = fs w)) /\
  (forall dir file llm sm w1,
     __init__ dir file llm w = (Return sm, w1) ->
     sm = mkSchemaManager dir file (Path.div dir file) llm /\
     Fs.is_dir (fs w1) dir = true /\
     files (fs w1) = files (fs w)) /\
  (forall dir file llm,
     clear_of_files (fs w) dir = true ->
     exists w1,
       __init__ dir file llm w
       = (Return (mkSchemaManager dir file (Path.div dir file) llm), w1)).
Proof.
  assert (Hwrite : Fs.parent_error (fs w) (schema_path self) = None ->
                   Fs.is_dir (fs w) (schema_path self) = false ->
                   exists w1,
                     set_schema self X w = (Return tt, w1) /\
                     files (fs w1) !! schema_path self = Some X /\
                     same_except (schema_path self) (fs w) (fs w1)).
  { intros Hpar Hd. rewrite set_schema_eq. cbv zeta.
    destruct (Fs.write_text (fs w) (schema_path self) X) as [e|f'] eqn:Hw.
    + unfold Fs.write_text in Hw. rewrite Hd, Hpar in Hw. discriminate.
    + eexists. split; [reflexivity|]. cbn [fs]. split.
      * eapply written_path_exists. exact Hw.
      * eapply write_text_same_except. exact Hw. }
  assert (Hfail : Fs.is_dir (fs w) (Path.parent (schema_path self)) = false ->
                  exists e w1,
                    set_schema self X w = (Raise e, w1) /\ fs w1 = fs w).
  { intros Hno. rewrite set_schema_eq. cbv zeta.
    destruct (Fs.write_text (fs w) (schema_path self) X) as [e|f'] eqn:Hw.
    + eexists _, _. split; reflexivity.
    + unfold Fs.write_text, Fs.parent_error in Hw. rewrite Hno in Hw.
      destruct (Fs.is_dir (fs w) (schema_path self)); [discriminate|].
      destruct (existsb _ _); discriminate. }
  split; [|split; [|split; [|split]]].
  - intros Hpar Hanc Hd. apply Hwrite; [|exact Hd].
    unfold Fs.parent_error. rewrite Hanc, Hpar. reflexivity.
  - exact Hfail.
  - intros name Hpath. split.
    + intros Hdir Hclear Hd. apply Hwrite; [|exact Hd].
      rewrite Hpath. apply parent_error_below_dir; [|exact Hdir].
      apply clear_of_files_no_file_on. exact Hclear.
    + intros Hdir. apply Hfail. rewrite Hpath. unfold Path.div.
      rewrite parent_snoc. exact Hdir.
  - intros dir file llm sm w1. destruct w as [f sm0 t].
    unfold __init__. run_monad. unfold Fs.mkdir_parents.
    destruct (Fs.mkdir_parents_upto (length dir) f dir) as [e|f'] eqn:Hmk;
      run_monad; [discriminate|].
    intros [= <- <-]. cbn [fs]. split; [reflexivity|].
    eapply mkdir_parents_post. exact Hmk.
  - intros dir file llm Hclear. destruct w as [f sm0 t].
    cbn [fs] in Hclear. apply clear_of_files_no_file_on in Hclear.
    destruct (mkdir_parents_total (length dir) f dir) as (f' & Hmk & _);
      [lia | exact Hclear |].
    unfold __init__. run_monad. unfold Fs.mkdir_parents. rewrite Hmk.
    run_monad. eexists. reflexivity.
Qed.

Lemma C8_write_needs_directory_witness :
  let sm := mkSchemaManager ["data"; "prisma"] ["schema.prisma"]
              ["data"; "prisma"; "schema.prisma"] None in
  let w0 := fresh_world empty_fs default_manager in
  let w1 := snd (__init__ ["data"; "prisma"] ["schema.prisma"] None w0) in
  (__init__ ["data"; "prisma"] ["schema.prisma"] None w0 = (Return sm, w1) /\
   exists w2,
     set_schema sm "model A { }" w1 = (Return tt, w2) /\
     files (fs w2) !! ["data"; "prisma"; "schema.prisma"]
     = Some "model A { }" /\
     same_except ["data"; "prisma"; "schema.prisma"] (fs w1) (fs w2)) /\
  (Fs.is_dir prisma_fs ["prisma"] = true /\
   exists e w2,
     set_schema nested_manager "model A { }"
       (fresh_world prisma_fs default_manager) = (Raise e, w2) /\
     fs w2 = prisma_fs) /\
  (exists e w2,
     set_schema default_manager "model A { }" w0 = (Raise e, w2) /\
     fs w2 = empty_fs).
Proof.
  cbv zeta. split; [|split].
  - destruct (C8_write_needs_directory default_manager "model A { }"
                (fresh_world empty_fs default_manager))
      as (_ & _ & _ & _ & Htotal).
    destruct (Htotal ["data"; "prisma"] ["schema.prisma"] None eq_refl)
      as [w1 Hinit].
    rewrite Hinit. cbn [snd]. split; [reflexivity|].
    apply (f_equal snd) in Hinit. cbn [snd] in Hinit. subst w1.
    destruct (C8_write_needs_directory
                (mkSchemaManager ["data"; "prisma"] ["schema.prisma"]
                   ["data"; "prisma"; "schema.prisma"] None)
                "model A { }"
                (snd (__init__ ["data"; "prisma"] ["schema.prisma"] None
                        (fresh_world empty_fs default_manager))))
      as (_ & _ & Hname & _).
    destruct (Hname "schema.prisma" eq_refl) as [Hwrite _].
    apply Hwrite; vm_compute; reflexivity.
  - split; [reflexivity|].
    destruct (C8_write_needs_directory nested_manager "model A { }"
                (fresh_world prisma_fs default_manager))
      as (_ & Hfail & _).
    apply Hfail. vm_compute. reflexivity.
  - destruct (C8_write_needs_directory default_manager "model A { }"
                (fresh_world empty_fs default_manager))
      as (_ & _ & Hname & _).
    destruct (Hname "schema.prisma" eq_refl) as [_ Hfail].
    apply Hfail. vm_compute. reflexivity.
Defined.

(** C8, as the specification has it, fails: with no [prisma] directory,
    [set_schema] on the default manager raises [FileNotFoundError] and
    creates nothing. *)
Lemma C8_write_fails_without_directory :
  let out := set_schema default_manager "model A { }"
               (fresh_world empty_fs default_manager) in
  fst out = Raise (Fs.ENOENT ["prisma"; "schema.prisma"]) /\
  Exn.isinstance (Fs.ENOENT ["prisma"; "schema.prisma"]) Exn.FileNotFoundError
  = true /\
  fs (snd out) = empty_fs /\
  Fs.is_dir (fs (snd out)) ["prisma"] = false.
Proof. vm_compute. repeat split. Qed.

(** ** The claims about the removal of code fences *)

Lemma append_nil (b : string) : "" +:+ b = b.
Proof. reflexivity. Qed.

Lemma append_cons (x : ascii) (a b : string) :
  String x a +:+ b = String x (a +:+ b).
Proof. reflexivity. Qed.

Lemma append_assoc (a b c : string) : (a +:+ b) +:+ c = a +:+ (b +:+ c).
Proof.
  induction a as [|x a IH]; [reflexivity|].
  rewrite !append_cons. f_equal. exact IH.
Qed.

Lemma prefix_true_iff (n s : string) :
  String.prefix n s = true <-> exists t, s = n +:+ t.
Proof.
  revert s. induction n as [|x n IH]; intros [|y s]; cbn [String.prefix].
  - split; [intros _; exists ""; reflexivity | reflexivity].
  - split; [intros _; exists (String y s); reflexivity | reflexivity].
  - split; [discriminate | intros [t [=]]].
  - destruct (ascii_dec x y) as [->|Hne].
    + rewrite IH. split; intros [t Ht]; exists t.
      * rewrite append_cons. now rewrite Ht.
      * rewrite append_cons in Ht. now injection Ht.
    + split; [discriminate|]. intros [t Ht].
      rewrite append_cons in Ht. injection Ht as ? _. congruence.
Qed.

(** [needle in s] holds exactly when [s] is [a + needle + b] for some
    [a] and [b]. *)
Lemma contains_true_iff (n s : string) :
  PyStr.contains n s = true <-> exists a b, s = a +:+ n +:+ b.
Proof.
  induction s as [|y s IH]; cbn [PyStr.contains].
  - rewrite orb_false_r, prefix_true_iff. split.
    + intros [t Ht]. exists "", t. exact Ht.
    + intros (a & b & Hab). destruct a; [exists b; exact Hab|].
      rewrite append_cons in Hab. discriminate.
  - rewrite orb_true_iff, prefix_true_iff, IH. split.
    + intros [[t Ht]|(a & b & Hab)].
      * exists "", t. exact Ht.
      * exists (String y a), b. rewrite append_cons. now rewrite Hab.
    + intros (a & b & Hab). destruct a as [|x a].
      * left. exists b. exact Hab.
      * right. exists a, b. rewrite append_cons in Hab. now injection Hab.
Qed.

Lemma lstrip_suffix s : exists a, s = a +:+ PyStr.lstrip s.
Proof.
  induction s as [|x s [a IH]]; cbn [PyStr.lstrip]; [exists ""; reflexivity|].
  destruct (PyStr.isspace x).
  - exists (String x a). rewrite append_cons. now rewrite <- IH.
  - exists "". reflexivity.
Qed.

Lemma rstrip_prefix s : exists b, s = PyStr.rstrip s +:+ b.
Proof.
  induction s as [|x s [b IH]]; cbn [PyStr.rstrip]; [exists ""; reflexivity|].
  destruct (PyStr.rstrip s) as [|y r] eqn:Hr.
  - destruct (PyStr.isspace x).
    + exists (String x s). reflexivity.
    + exists s. reflexivity.
  - exists b. rewrite append_cons. now rewrite <- IH.
Qed.

(** What [strip] keeps is a part of what it was given. *)
Lemma contains_strip n s :
  PyStr.contains n (PyStr.strip s) = true -> PyStr.contains n s = true.
Proof.
  rewrite !contains_true_iff. intros (x & y & Hxy).
  destruct (lstrip_suffix s) as [a Ha].
  destruct (rstrip_prefix (PyStr.lstrip s)) as [b Hb].
  unfold PyStr.strip in Hxy. rewrite Hxy in Hb. rewrite Hb in Ha.
  exists (a +:+ x), (y +:+ b). rewrite Ha.
  now rewrite !append_assoc.
Qed.

Lemma rstrip_cons x s :
  PyStr.rstrip (String x s) =
  match PyStr.rstrip s with
  | "" => if PyStr.isspace x then "" else String x ""
  | r => String x r
  end.
Proof. reflexivity. Qed.

Lemma rstrip_idempotent s : PyStr.rstrip (PyStr.rstrip s) = PyStr.rstrip s.
Proof.
  induction s as [|x s IH]; [reflexivity|]. rewrite rstrip_cons.
  destruct (PyStr.rstrip s) as [|y r] eqn:Hr.
  - destruct (PyStr.isspace x) eqn:Hx; [reflexivity|].
    rewrite rstrip_cons. cbn [PyStr.rstrip]. now rewrite Hx.
  - rewrite rstrip_cons, IH. reflexivity.
Qed.

Lemma lstrip_starts_nonspace s : starts_nonspace (PyStr.lstrip s).
Proof.
  induction s as [|x s IH]; simpl; [exact I|].
  destruct (PyStr.isspace x) eqn:Hx; [exact IH|exact Hx].
Qed.

Lemma rstrip_starts_nonspace s :
  starts_nonspace s -> starts_nonspace (PyStr.rstrip s).
Proof.
  destruct s as [|x s]; [auto|]. intros Hx. rewrite rstrip_cons.
  cbn [starts_nonspace] in Hx.
  destruct (PyStr.rstrip s); [rewrite Hx|]; exact Hx.
Qed.

Lemma lstrip_id s : starts_nonspace s -> PyStr.lstrip s = s.
Proof. destruct s as [|x s]; simpl; [auto|]. now intros ->. Qed.

Lemma strip_idempotent s : PyStr.strip (PyStr.strip s) = PyStr.strip s.
Proof.
  unfold PyStr.strip.
  rewrite (lstrip_id (PyStr.rstrip (PyStr.lstrip s))).
  - apply rstrip_idempotent.
  - apply rstrip_starts_nonspace, lstrip_starts_nonspace.
Qed.

(** C9: on a reply without any triple backtick, the stripping step
    returns the reply with its leading and trailing white space trimmed
    and nothing else changed; applying the step again changes nothing. *)
Theorem C9_strip_fences_without_fence s :
  PyStr.contains fence s = false ->
  strip_fences s = PyStr.strip s /\
  strip_fences (strip_fences s) = strip_fences s.
Proof.
  intros Hno.
  assert (Hfirst : strip_fences s = PyStr.strip s).
  { unfold strip_fences, extract_code_block. now rewrite Hno. }
  split; [exact Hfirst|].
  rewrite Hfirst. unfold strip_fences, extract_code_block.
  destruct (PyStr.contains fence (PyStr.strip s)) eqn:Hc.
  - apply contains_strip in Hc. congruence.
  - apply strip_idempotent.
Qed.

Lemma C9_strip_fences_without_fence_witness :
  PyStr.contains fence "  model A { id Int @id }  " = false /\
  strip_fences "  model A { id Int @id }  " = "model A { id Int @id }".
Proof.
  split; [reflexivity|].
  transitivity (PyStr.strip "  model A { id Int @id }  "); [|reflexivity].
  apply (C9_strip_fences_without_fence "  model A { id Int @id }  ").
  reflexivity.
Defined.

(** ** The claims about writes of the artifact *)

(** What [get_schema] gives depends on the directories and on the file at
    the schema path only. *)
Lemma get_schema_same_except self p w w' :
  schema_path self <> p ->
  same_except p (fs w) (fs w') ->
  fst (get_schema self w') = fst (get_schema self w).
Proof.
  intros Hne [Hd Hf]. specialize (Hf _ Hne). rewrite !get_schema_eq.
  unfold Fs.path_exists, Fs.is_file, Fs.read_text, Fs.is_dir.
  rewrite Hd, Hf.
  destruct (bool_decide (schema_path self = []) ||
            bool_decide (schema_path self ∈ dirs (fs w))); [reflexivity|].
  cbn [negb andb orb].
  destruct (files (fs w) !! schema_path self) as [x|].
  - rewrite bool_decide_eq_true_2 by eauto. reflexivity.
  - rewrite bool_decide_eq_false_2 by (intros [? ?]; discriminate).
    reflexivity.
Qed.

(** C5, as the code has it.  The orchestrator calls [set_schema] only on a
    run that returns success with a candidate other than the initial one,
    and the file at the schema path then holds that candidate; on every
    other run, the
    artifact path being another path than the temporary one, what
    [get_schema] gives is what it gave before.  The front end
    [_process_input], after [validate_schema] has returned success, calls
    [set_schema] itself with the accepted candidate, whether or not the
    orchestrator has written it; after a failed run it writes nothing. *)
Theorem C5_artifact_writes E self c max w agent state :
  schema_path self <> temp_schema_path self ->
  (forall r w',
     validate_schema E self c max w = (r, w') ->
     match r with
     | Return res =>
         if success res && negb (String.eqb (fixed_schema res) c)
         then writes w' = S (writes w) /\
              files (fs w') !! schema_path self = Some (fixed_schema res)
         else writes w' = writes w /\
              fst (get_schema self w') = fst (get_schema self w)
     | _ => fst (get_schema self w') = fst (get_schema self w)
     end) /\
  (forall reply w1 res w3,
     chat_completion E (Agent.llm_client agent)
       (schema_prompt (Agent.user_input state))
       (Some (schema_system_message E)) w = (Return reply, w1) ->
     let sm := with_llm_client (schema_manager w1) (Agent.llm_client agent) in
     validate_schema E sm (strip_fences reply) 3
       (orchestration_world (Agent.llm_client agent) w1) = (Return res, w3) ->
     snd (_process_input E agent state w) =
     if success res then snd (set_schema sm (fixed_schema res) w3) else w3).
Proof.
  intros Hne. split.
  - intros r w' Hrun.
    destruct (PyStr.truthy c) eqn:Hc.
    + destruct (validate_schema_spec E self c max w Hc)
        as (r' & w'' & Hrun' & _ & _ & Hpost).
      rewrite Hrun in Hrun'. injection Hrun' as <- <-.
      destruct r as [res|e|]; [| |contradiction].
      * unfold run_post in Hpost.
        destruct (success res); cbn [andb].
        -- destruct Hpost as (_ & _ & _ & _ & _ & Hwr).
           destruct (String.eqb (fixed_schema res) c); cbn [negb].
           ++ destruct Hwr as [Hwr Hsame]. split; [exact Hwr|].
              eapply get_schema_same_except; eassumption.
           ++ destruct Hwr as [Hwr (f1 & _ & Hwt)]. split; [exact Hwr|].
              eapply written_path_exists. exact Hwt.
        -- destruct Hpost as (Hwr & Hsame & _). split; [exact Hwr|].
           eapply get_schema_same_except; eassumption.
      * destruct Hpost as [(_ & _ & ->)|(_ & _ & Hsame)]; [reflexivity|].
        eapply get_schema_same_except; eassumption.
    + destruct c; [|discriminate].
      rewrite validate_schema_empty in Hrun. injection Hrun as <- <-.
      cbn [success andb]. auto.
  - intros reply w1 res w3 Hchat sm Hval.
    unfold _process_input. run_monad.
    change (Agent.user_input (Agent.del_error state))
      with (Agent.user_input state).
    rewrite Hchat. unfold set_schema_manager_llm_client, get_schema_manager.
    cbn [fs schema_manager trace].
    fold (with_llm_client (schema_manager w1) (Agent.llm_client agent)).
    fold sm.
    change (PyStr.strip (extract_code_block reply)) with (strip_fences reply).
    change (mkWorld (fs w1) sm (trace w1))
      with (orchestration_world (Agent.llm_client agent) w1).
    rewrite Hval. destruct (success res); [|reflexivity].
    run_monad.
    destruct (set_schema sm (fixed_schema res) w3) as [[u|e|] w4]; reflexivity.
Qed.

Lemma C5_artifact_writes_witness :
  let w := fresh_world prisma_fs manager_with_llm in
  let out := validate_schema env_accepting_fixed manager_with_llm
               "model A {" 3 w in
  schema_path manager_with_llm <> temp_schema_path manager_with_llm /\
  writes (snd out) = S (writes w) /\
  files (fs (snd out)) !! schema_path manager_with_llm
  = Some "model A { id Int @id }".
Proof.
  cbv zeta. split; [discriminate|].
  destruct (C5_artifact_writes env_accepting_fixed manager_with_llm
              "model A {" 3 (fresh_world prisma_fs manager_with_llm)
              an_agent a_state) as [Horch _]; [discriminate|].
  specialize (Horch _ _ (surjective_pairing _)).
  vm_compute in Horch |- *. exact Horch.
Defined.

(** C5, as the specification has it, fails: the validator accepts the
    generated schema at the first attempt, so the orchestrator writes
    nothing and the store is still empty when it returns; the front end
    then writes the artifact itself. *)
Lemma C5_front_end_writes_artifact :
  let w := fresh_world prisma_fs default_manager in
  let w1 := snd (chat_completion env_accepting a_client
                   (schema_prompt "a blog with posts")
                   (Some (schema_system_message env_accepting)) w) in
  let run := validate_schema env_accepting manager_with_llm
               "model A { id Int @id }" 3 (orchestration_world a_client w1) in
  let out := _process_input env_accepting an_agent a_state w in
  fst run = Return (mkResult true "" "model A { id Int @id }" 1) /\
  writes (snd run) = 0%nat /\
  files (fs (snd run)) !! ["prisma"; "schema.prisma"] = None /\
  writes (snd out) = 1%nat /\
  files (fs (snd out)) !! ["prisma"; "schema.prisma"]
  = Some "model A { id Int @id }".
Proof. vm_compute. repeat split. Qed.

(** * Further properties *)

(** ** Lines: [split] and [join] *)

Lemma contains_char_cons c a s :
  PyStr.contains (String c "") (String a s)
  = Ascii.eqb a c || PyStr.contains (String c "") s.
Proof.
  cbn [PyStr.contains String.prefix].
  destruct (ascii_dec c a) as [->|Hne].
  - rewrite Ascii.eqb_refl. destruct s; reflexivity.
  - destruct (Ascii.eqb_spec a c); [congruence|reflexivity].
Qed.

Lemma split_no_sep c l :
  PyStr.contains (String c "") l = false -> PyStr.split c l = [l].
Proof.
  induction l as [|a l IH]; [reflexivity|].
  rewrite contains_char_cons. intros H.
  apply orb_false_iff in H as [Ha Hl].
  cbn [PyStr.split]. rewrite Ha, (IH Hl). reflexivity.
Qed.

Lemma split_app_sep c l r :
  PyStr.contains (String c "") l = false ->
  PyStr.split c (l +:+ String c r) = l :: PyStr.split c r.
Proof.
  induction l as [|a l IH].
  - intros _. rewrite append_nil. cbn [PyStr.split].
    now rewrite Ascii.eqb_refl.
  - rewrite contains_char_cons. intros H.
    apply orb_false_iff in H as [Ha Hl].
    rewrite append_cons. cbn [PyStr.split]. rewrite Ha, (IH Hl). reflexivity.
Qed.

Lemma join_cons2 sep x y l :
  PyStr.join sep (x :: y :: l) = x +:+ sep +:+ PyStr.join sep (y :: l).
Proof. reflexivity. Qed.

(** Splitting what was joined gives the lines back. *)
Lemma split_join ls :
  ls <> [] ->
  forallb (fun l => negb (PyStr.contains PyStr.nl l)) ls = true ->
  PyStr.split "010" (PyStr.join PyStr.nl ls) = ls.
Proof.
  induction ls as [|x ls IH]; [congruence|]. intros _ Hall.
  cbn [forallb] in Hall. apply andb_true_iff in Hall as [Hx Hall].
  apply negb_true_iff in Hx.
  destruct ls as [|y ls]; [apply split_no_sep; exact Hx|].
  rewrite join_cons2. unfold PyStr.nl at 1. rewrite append_cons, append_nil.
  rewrite split_app_sep by exact Hx. f_equal. apply IH; [discriminate|exact Hall].
Qed.

Lemma split_nonempty c s : PyStr.split c s <> [].
Proof.
  destruct s as [|a s]; [discriminate|]. cbn [PyStr.split].
  destruct (Ascii.eqb a c); [discriminate|].
  destruct (PyStr.split c s); discriminate.
Qed.

Lemma join_cons_char sep a h t :
  PyStr.join sep (String a h :: t) = String a (PyStr.join sep (h :: t)).
Proof. destruct t; reflexivity. Qed.

(** Joining what was split gives the text back. *)
Lemma join_split s : PyStr.join PyStr.nl (PyStr.split "010" s) = s.
Proof.
  induction s as [|a s IH]; [reflexivity|]. cbn [PyStr.split].
  destruct (Ascii.eqb_spec a "010") as [->|Hne].
  - destruct (PyStr.split "010" s) as [|h t] eqn:Hs;
      [now apply split_nonempty in Hs|].
    rewrite join_cons2, IH. reflexivity.
  - destruct (PyStr.split "010" s) as [|h t] eqn:Hs;
      [now apply split_nonempty in Hs|].
    rewrite join_cons_char, IH. reflexivity.
Qed.

Lemma append_nil_r (a : string) : a +:+ "" = a.
Proof.
  induction a as [|x a IH]; [reflexivity|]. rewrite append_cons. now rewrite IH.
Qed.

Lemma in_join_part sep x ls :
  In x ls -> exists a b, PyStr.join sep ls = a +:+ x +:+ b.
Proof.
  induction ls as [|y ls IH]; [intros []|]. intros [->|Hin].
  - destruct ls as [|z ls].
    + exists "", "". now rewrite append_nil, append_nil_r.
    + exists "", (sep +:+ PyStr.join sep (z :: ls)). reflexivity.
  - destruct (IH Hin) as (a & b & Hab). destruct ls as [|z ls]; [destruct Hin|].
    exists (y +:+ sep +:+ a), b. rewrite join_cons2, Hab.
    now rewrite !append_assoc.
Qed.

Lemma contains_part n x y a b :
  y = a +:+ x +:+ b ->
  PyStr.contains n x = true -> PyStr.contains n y = true.
Proof.
  intros -> Hx. apply contains_true_iff in Hx as (a' & b' & ->).
  apply contains_true_iff. exists (a +:+ a'), (b' +:+ b).
  now rewrite !append_assoc.
Qed.

Lemma fence_line_contains_fence line :
  is_fence_line line = true -> PyStr.contains fence line = true.
Proof.
  unfold is_fence_line, PyStr.startswith. intros H.
  apply prefix_true_iff in H as [t Ht].
  destruct (lstrip_suffix line) as [a Ha].
  destruct (rstrip_prefix (PyStr.lstrip line)) as [b Hb].
  unfold PyStr.strip in Ht. rewrite Ht in Hb. rewrite Hb in Ha.
  apply contains_true_iff. exists a, (t +:+ b). rewrite Ha.
  now rewrite !append_assoc.
Qed.

Lemma joined_fence_line_contains_fence ls line :
  In line ls -> is_fence_line line = true ->
  PyStr.contains fence (PyStr.join PyStr.nl ls) = true.
Proof.
  intros Hin Hf. destruct (in_join_part PyStr.nl line ls Hin) as (a & b & Hab).
  eapply contains_part; [exact Hab|]. apply fence_line_contains_fence, Hf.
Qed.

(** ** The loop over the lines *)

Lemma fence_step_toggle b acc line :
  is_fence_line line = true -> fence_step (b, acc) line = (negb b, acc).
Proof. unfold fence_step, is_fence_line. now intros ->. Qed.

Lemma fold_outside ls acc :
  forallb (fun l => negb (is_fence_line l)) ls = true ->
  fold_left fence_step ls (false, acc) = (false, acc).
Proof.
  induction ls as [|l ls IH]; [reflexivity|]. cbn [forallb fold_left].
  intros H. apply andb_true_iff in H as [Hl Hls].
  apply negb_true_iff in Hl. unfold is_fence_line in Hl. unfold fence_step at 2.
  rewrite Hl. apply IH, Hls.
Qed.

Lemma fold_inside ls acc :
  forallb (fun l => negb (is_fence_line l)) ls = true ->
  fold_left fence_step ls (true, acc) = (true, (acc ++ ls)%list).
Proof.
  revert acc. induction ls as [|l ls IH]; intros acc.
  - intros _. now rewrite app_nil_r.
  - cbn [forallb fold_left]. intros H. apply andb_true_iff in H as [Hl Hls].
    apply negb_true_iff in Hl. unfold is_fence_line in Hl. unfold fence_step at 2.
    rewrite Hl. rewrite IH by exact Hls. now rewrite <- app_assoc.
Qed.

Lemma plain_lines_split ls :
  forallb plain_line ls = true ->
  forallb (fun l => negb (PyStr.contains PyStr.nl l)) ls = true /\
  forallb (fun l => negb (is_fence_line l)) ls = true.
Proof.
  induction ls as [|l ls IH]; [auto|]. cbn [forallb]. intros H.
  apply andb_true_iff in H as [Hl Hls]. apply andb_true_iff in Hl as [H1 H2].
  destruct (IH Hls) as [I1 I2]. rewrite H1, H2, I1, I2. auto.
Qed.

Lemma forallb_app_true {A} (P : A -> bool) l1 l2 :
  forallb P l1 = true -> forallb P l2 = true -> forallb P (l1 ++ l2) = true.
Proof. intros H1 H2. rewrite forallb_app, H1, H2. reflexivity. Qed.

(** Whatever the lines, the loop keeps some of them, in their order, and
    no fence line among them. *)
Lemma fold_fence_step_keeps ls :
  forall b acc, exists b' kept,
    fold_left fence_step ls (b, acc) = (b', (acc ++ kept)%list) /\
    sublist kept ls /\
    forallb (fun l => negb (is_fence_line l)) kept = true.
Proof.
  induction ls as [|l ls IH]; intros b acc.
  - exists b, []. rewrite app_nil_r. repeat split. constructor.
  - cbn [fold_left]. unfold fence_step at 2.
    destruct (PyStr.startswith fence (PyStr.strip l)) eqn:Hl.
    + destruct (IH (negb b) acc) as (b' & kept & Hf & Hs & Hk).
      exists b', kept. split; [exact Hf|]. split; [|exact Hk].
      now apply sublist_cons.
    + destruct b.
      * destruct (IH true (acc ++ [l])%list) as (b' & kept & Hf & Hs & Hk).
        exists b', (l :: kept). rewrite Hf, <- app_assoc.
        split; [reflexivity|]. split; [now apply sublist_skip|].
        cbn [forallb]. rewrite Hk. unfold is_fence_line. now rewrite Hl.
      * destruct (IH false acc) as (b' & kept & Hf & Hs & Hk).
        exists b', kept. split; [exact Hf|]. split; [|exact Hk].
        now apply sublist_cons.
Qed.

(** ** What the removal of code fences keeps *)

(** X1: whatever the reply, the text left by [extract_code_block] is made
    of whole lines of the reply, in their order, joined by line feeds; when
    the reply has a triple backtick, none of the lines left is a fence
    line. *)
Theorem extract_code_block_keeps_lines text :
  exists kept,
    extract_code_block text = PyStr.join PyStr.nl kept /\
    sublist kept (PyStr.split "010" text) /\
    (PyStr.contains fence text = true ->
     forallb (fun l => negb (is_fence_line l)) kept = true).
Proof.
  unfold extract_code_block.
  destruct (PyStr.contains fence text) eqn:Hc.
  - destruct (fold_fence_step_keeps (PyStr.split "010" text) false [])
      as (b' & kept & Hf & Hs & Hk).
    exists kept. rewrite Hf. cbn [app]. auto.
  - exists (PyStr.split "010" text). rewrite join_split.
    split; [reflexivity|]. split; [reflexivity|discriminate].
Qed.

Lemma extract_code_block_keeps_lines_witness :
  exists kept,
    extract_code_block fenced_reply = PyStr.join PyStr.nl kept /\
    sublist kept (PyStr.split "010" fenced_reply) /\
    forallb (fun l => negb (is_fence_line l)) kept = true.
Proof.
  destruct (extract_code_block_keeps_lines fenced_reply)
    as (kept & He & Hs & Hk).
  exists kept. split; [exact He|]. split; [exact Hs|].
  apply Hk. reflexivity.
Defined.

(** The lines of a reply with one fenced block, closed or not. *)
Lemma block_lines_split pre o body rest :
  forallb plain_line pre = true -> toggle_line o = true ->
  forallb plain_line body = true ->
  forallb (fun l => negb (PyStr.contains PyStr.nl l)) rest = true ->
  let ls := (pre ++ o :: body ++ rest)%list in
  PyStr.contains fence (PyStr.join PyStr.nl ls) = true /\
  PyStr.split "010" (PyStr.join PyStr.nl ls) = ls.
Proof.
  intros Hpre Ho Hbody Hrest ls.
  apply andb_true_iff in Ho as [Ho1 Ho2].
  destruct (plain_lines_split _ Hpre) as [Hpre1 _].
  destruct (plain_lines_split _ Hbody) as [Hbody1 _].
  split.
  - apply (joined_fence_line_contains_fence ls o); [|exact Ho2].
    apply in_or_app. right. now left.
  - apply split_join; [subst ls; destruct pre; discriminate|].
    subst ls. apply forallb_app_true; [exact Hpre1|].
    cbn [forallb]. rewrite Ho1. apply forallb_app_true; assumption.
Qed.

(** X2: a reply made of plain lines, a fence line, plain lines, a closing
    fence line and plain lines again is reduced to the lines between the
    two fence lines. *)
Theorem extract_code_block_single_block pre o body c post :
  forallb plain_line pre = true ->
  toggle_line o = true ->
  forallb plain_line body = true ->
  toggle_line c = true ->
  forallb plain_line post = true ->
  extract_code_block (PyStr.join PyStr.nl (pre ++ o :: body ++ c :: post))
  = PyStr.join PyStr.nl body.
Proof.
  intros Hpre Ho Hbody Hc Hpost.
  destruct (plain_lines_split _ Hpost) as [Hpost1 Hpost2].
  destruct (block_lines_split pre o body (c :: post) Hpre Ho Hbody)
    as [Hfence Hsplit].
  { cbn [forallb]. apply andb_true_iff in Hc as [-> _]. exact Hpost1. }
  unfold extract_code_block. rewrite Hfence, Hsplit.
  destruct (plain_lines_split _ Hpre) as [_ Hpre2].
  destruct (plain_lines_split _ Hbody) as [_ Hbody2].
  apply andb_true_iff in Ho as [_ Ho]. apply andb_true_iff in Hc as [_ Hc].
  rewrite fold_left_app, (fold_outside pre [] Hpre2). cbn [fold_left].
  rewrite (fence_step_toggle false [] o Ho). cbn [negb].
  rewrite fold_left_app, (fold_inside body [] Hbody2). cbn [fold_left app].
  rewrite (fence_step_toggle true body c Hc). cbn [negb].
  rewrite (fold_outside post body Hpost2). reflexivity.
Qed.

Lemma extract_code_block_single_block_witness :
  extract_code_block fenced_reply = "model A { id Int @id }".
Proof.
  apply (extract_code_block_single_block ["Here is the schema:"] "```prisma"
           ["model A { id Int @id }"] "```" ["Done."]); reflexivity.
Defined.

(** X3: when the fence is never closed, everything below the opening
    fence line is kept. *)
Theorem extract_code_block_unclosed_block pre o body :
  forallb plain_line pre = true ->
  toggle_line o = true ->
  forallb plain_line body = true ->
  extract_code_block (PyStr.join PyStr.nl (pre ++ o :: body))
  = PyStr.join PyStr.nl body.
Proof.
  intros Hpre Ho Hbody.
  destruct (block_lines_split pre o body [] Hpre Ho Hbody eq_refl)
    as [Hfence Hsplit].
  rewrite app_nil_r in Hfence, Hsplit.
  unfold extract_code_block. rewrite Hfence, Hsplit.
  destruct (plain_lines_split _ Hpre) as [_ Hpre2].
  destruct (plain_lines_split _ Hbody) as [_ Hbody2].
  apply andb_true_iff in Ho as [_ Ho].
  rewrite fold_left_app, (fold_outside pre [] Hpre2). cbn [fold_left].
  rewrite (fence_step_toggle false [] o Ho). cbn [negb].
  rewrite (fold_inside body [] Hbody2). reflexivity.
Qed.

Lemma extract_code_block_unclosed_block_witness :
  extract_code_block
    (PyStr.join PyStr.nl ["Sure:"; "```prisma"; "model A {"; "}"])
  = PyStr.join PyStr.nl ["model A {"; "}"].
Proof.
  apply (extract_code_block_unclosed_block ["Sure:"] "```prisma"
           ["model A {"; "}"]); reflexivity.
Defined.

(** X4: a reply that has triple backticks, but none at the start of a
    line (white space aside), loses all its text. *)
Theorem strip_fences_inline_backticks_only text :
  PyStr.contains fence text = true ->
  forallb (fun l => negb (is_fence_line l)) (PyStr.split "010" text) = true ->
  strip_fences text = "".
Proof.
  intros Hc Hlines. unfold strip_fences, extract_code_block.
  rewrite Hc, (fold_outside _ [] Hlines). reflexivity.
Qed.

Lemma strip_fences_inline_backticks_only_witness :
  strip_fences "Use model A { } in a ```prisma``` block." = "".
Proof.
  apply (strip_fences_inline_backticks_only
           "Use model A { } in a ```prisma``` block."); reflexivity.
Defined.

(** ** More about the orchestrator *)

(** X5: when the validator passes on the first call, [validate_schema]
    returns success with [attempts = 1] and the candidate as it was given,
    in the very world the validator call has left: nothing is repaired,
    nothing is written. *)
Theorem validate_schema_first_pass E self c max w d w1 :
  1 <= max ->
  PyStr.truthy c = true ->
  _run_prisma_validate E self c w = (Return (true, d), w1) ->
  validate_schema E self c max w = (Return (mkResult true "" c 1), w1) /\
  repairs w1 = repairs w /\ writes w1 = writes w.
Proof.
  intros Hmax Hc Hchk.
  destruct (run_prisma_validate_returns E self c w)
    as (p & d' & w1' & Hchk' & _ & _ & Hrp & Hwr & _).
  rewrite Hchk in Hchk'. injection Hchk' as <- <- <-.
  split; [|split; assumption].
  unfold validate_schema. rewrite Hc. cbn [negb validate_loop].
  destruct (Z.ltb_spec 0 max); [|lia].
  unfold bind. rewrite Hchk. rewrite String.eqb_refl. reflexivity.
Qed.

Lemma validate_schema_first_pass_witness :
  exists w1,
    validate_schema env_accepting manager_with_llm "model A { }" 3
      (fresh_world prisma_fs manager_with_llm)
    = (Return (mkResult true "" "model A { }" 1), w1) /\
    repairs w1 = 0%nat /\ writes w1 = 0%nat.
Proof.
  eexists.
  eapply (validate_schema_first_pass env_accepting manager_with_llm
            "model A { }" 3 (fresh_world prisma_fs manager_with_llm)
            "");
    [lia | reflexivity | vm_compute; reflexivity].
Defined.

(** X6: with [max_retries = 1], a failing validator call ends the run at
    once, with the validator's diagnostic, even when an LLM client is
    configured: the repair requester is not called. *)
Theorem validate_schema_single_attempt E self c w d w1 :
  PyStr.truthy c = true ->
  _run_prisma_validate E self c w = (Return (false, d), w1) ->
  validate_schema E self c 1 w = (Return (mkResult false d c 1), w1) /\
  repairs w1 = repairs w.
Proof.
  intros Hc Hchk.
  destruct (run_prisma_validate_returns E self c w)
    as (p & d' & w1' & Hchk' & _ & _ & Hrp & _).
  rewrite Hchk in Hchk'. injection Hchk' as <- <- <-.
  split; [|exact Hrp].
  unfold validate_schema. rewrite Hc. cbn [negb validate_loop Z.to_nat].
  cbn [Pos.to_nat Pos.iter_op Nat.add validate_loop].
  change (0 <? 1) with true. cbv iota. unfold bind. rewrite Hchk.
  change (0 + 1 <? 1) with false. reflexivity.
Qed.

Lemma validate_schema_single_attempt_witness :
  exists w1,
    validate_schema env_rejecting manager_with_llm "model A { }" 1
      (fresh_world prisma_fs manager_with_llm)
    = (Return (mkResult false "missing id field" "model A { }" 1), w1) /\
    repairs w1 = 0%nat.
Proof.
  eexists.
  eapply (validate_schema_single_attempt env_rejecting manager_with_llm
            "model A { }" (fresh_world prisma_fs manager_with_llm));
    [reflexivity | vm_compute; reflexivity].
Defined.

(** X7: the validator fails on the candidate, the repair requester gives
    another candidate and the validator passes on that one: the run
    returns success with [attempts = 2] and the repaired candidate.  When
    the repaired candidate differs from the initial one it is written to
    the schema path, and the run returns once the write has returned;
    when the write raises, the run raises the same exception. *)
Theorem validate_schema_repair_then_pass
    E self c max w d w1 c' w2 d' w3 :
  2 <= max ->
  PyStr.truthy c = true ->
  is_Some (llm_client self) ->
  _run_prisma_validate E self c w = (Return (false, d), w1) ->
  _fix_schema_with_llm E self c d w1 = (Return c', w2) ->
  _run_prisma_validate E self c' w2 = (Return (true, d'), w3) ->
  (c' = c ->
   validate_schema E self c max w = (Return (mkResult true "" c' 2), w3)) /\
  (c' <> c ->
   (forall w4,
      set_schema self c' w3 = (Return tt, w4) ->
      validate_schema E self c max w = (Return (mkResult true "" c' 2), w4) /\
      files (fs w4) !! schema_path self = Some c') /\
   (forall e w4,
      set_schema self c' w3 = (Raise e, w4) ->
      validate_schema E self c max w = (Raise e, w4))).
Proof.
  intros Hmax Hc Hllm Hchk1 Hfix Hchk2.
  assert (Hrun : validate_schema E self c max w =
                 bind (when (negb (String.eqb c' c)) (set_schema self c'))
                      (fun _ => ret (mkResult true "" c' 2)) w3).
  { unfold validate_schema. rewrite Hc. cbn [negb].
    destruct (Z.to_nat max) as [|[|n]] eqn:Hn; [lia|lia|].
    cbn [validate_loop].
    destruct (Z.ltb_spec 0 max); [|lia].
    unfold bind at 1 2. rewrite Hchk1.
    destruct (Z.ltb_spec (0 + 1) max); [|lia].
    rewrite bool_decide_eq_true_2 by exact Hllm. cbn [andb].
    unfold bind at 1. rewrite Hfix.
    destruct (Z.ltb_spec (0 + 1) max); [|lia].
    unfold bind at 1. rewrite Hchk2.
    unfold bind. destruct (when _ _ w3) as [[u|e|] w4]; reflexivity. }
  split.
  - intros ->. rewrite Hrun, String.eqb_refl. reflexivity.
  - intros Hne. apply String.eqb_neq in Hne. rewrite Hrun, Hne.
    cbn [negb when]. split.
    + intros w4 Hset. unfold bind. rewrite Hset. split; [reflexivity|].
      rewrite set_schema_eq in Hset. cbv zeta in Hset.
      destruct (Fs.write_text (fs w3) (schema_path self) c') as [e|f'] eqn:Hw;
        [discriminate|].
      injection Hset as <-. cbn [fs].
      eapply written_path_exists. exact Hw.
    + intros e w4 Hset. unfold bind. rewrite Hset. reflexivity.
Qed.

Lemma validate_schema_repair_then_pass_witness :
  exists w4,
    validate_schema env_accepting_fixed manager_with_llm "model A {" 3
      (fresh_world prisma_fs manager_with_llm)
    = (Return (mkResult true "" "model A { id Int @id }" 2), w4) /\
    files (fs w4) !! schema_path manager_with_llm
    = Some "model A { id Int @id }".
Proof.
  pose (w := fresh_world prisma_fs manager_with_llm).
  pose (o1 := _run_prisma_validate env_accepting_fixed manager_with_llm
                "model A {" w).
  pose (o2 := _fix_schema_with_llm env_accepting_fixed manager_with_llm
                "model A {" "missing id field" (snd o1)).
  pose (o3 := _run_prisma_validate env_accepting_fixed manager_with_llm
                "model A { id Int @id }" (snd o2)).
  pose (o4 := set_schema manager_with_llm "model A { id Int @id }" (snd o3)).
  exists (snd o4).
  refine (proj1 (proj2 (validate_schema_repair_then_pass env_accepting_fixed
            manager_with_llm "model A {" 3 w "missing id field" (snd o1)
            "model A { id Int @id }" (snd o2) "" (snd o3)
            _ _ _ _ _ _) _) (snd o4) _);
   try (vm_compute; reflexivity); try lia; try discriminate.
  simpl. eauto.
Defined.

(** What the validator adapter, the repair requester and [set_schema]
    all preserve, the loop preserves, however it is left. *)
Lemma validate_loop_preserves E self c max (P : World -> Prop) :
  (forall cur w, P w -> P (snd (_run_prisma_validate E self cur w))) ->
  (forall cur d w, P w -> P (snd (_fix_schema_with_llm E self cur d w))) ->
  (forall cur w, P w -> P (snd (set_schema self cur w))) ->
  forall fuel a cur em w,
    P w -> P (snd (validate_loop E fuel self c max a cur em w)).
Proof.
  intros Hchk Hfix Hset.
  induction fuel as [|fuel IH]; intros a cur em w HP; [exact HP|].
  cbn [validate_loop].
  destruct (a <? max); [|exact HP].
  specialize (Hchk cur w HP). unfold bind at 1.
  destruct (_run_prisma_validate E self cur w) as [[[passed diag]|e|] w1];
    cbn [snd] in *; try exact Hchk.
  destruct passed.
  - destruct (negb (String.eqb cur c)); cbn [when].
    + specialize (Hset cur w1 Hchk). unfold bind.
      destruct (set_schema self cur w1) as [[u|e|] w2]; exact Hset.
    + exact Hchk.
  - destruct ((a + 1 <? max) && bool_decide (is_Some (llm_client self)));
      [|exact Hchk].
    specialize (Hfix cur diag w1 Hchk). unfold bind.
    destruct (_fix_schema_with_llm E self cur diag w1) as [[s|e|] w2];
      cbn [snd] in *; try exact Hfix.
    apply IH. exact Hfix.
Qed.

Lemma validate_schema_preserves E self c max (P : World -> Prop) :
  (forall cur w, P w -> P (snd (_run_prisma_validate E self cur w))) ->
  (forall cur d w, P w -> P (snd (_fix_schema_with_llm E self cur d w))) ->
  (forall cur w, P w -> P (snd (set_schema self cur w))) ->
  forall w, P w -> P (snd (validate_schema E self c max w)).
Proof.
  intros Hchk Hfix Hset w HP. unfold validate_schema.
  destruct (negb (PyStr.truthy c)); [exact HP|].
  pose proof (validate_loop_preserves E self c max P Hchk Hfix Hset
                (S (Z.to_nat max)) 0 c None w HP) as Hloop.
  unfold bind.
  destruct (validate_loop E (S (Z.to_nat max)) self c max 0 c None w)
    as [[[res|a cur [d|]]|e|] w']; exact Hloop.
Qed.

(** X8: when the validator process always runs to completion, a run of
    [validate_schema] that starts without a temporary file ends without
    one, whatever the result: every candidate written for the validator
    has been removed again. *)
Theorem validate_schema_leaves_no_temp_file E self c max w :
  (forall w0 argv, exists r, subprocess_run E w0 argv = inr r) ->
  schema_path self <> temp_schema_path self ->
  files (fs w) !! temp_schema_path self = None ->
  files (fs (snd (validate_schema E self c max w))) !! temp_schema_path self
  = None.
Proof.
  intros Hcompletes Hne Hclean.
  apply (validate_schema_preserves E self c max
           (fun w => files (fs w) !! temp_schema_path self = None));
    [| | |exact Hclean].
  - intros cur w0 H0. rewrite run_prisma_validate_eq.
    destruct (Fs.write_text (fs w0) (temp_schema_path self) cur) as [e|f1];
      [exact H0|].
    cbv zeta.
    destruct (Hcompletes (launch_world E self cur f1 w0) (validate_argv E self))
      as [r ->].
    cbn [snd fs files]. apply lookup_delete_eq.
  - intros cur d w0 H0.
    destruct (fix_schema_with_llm_returns E self cur d w0)
      as (s & w1 & -> & _ & _ & _ & _ & Hfs).
    cbn [snd]. now rewrite Hfs.
  - intros cur w0 H0. rewrite set_schema_eq. cbv zeta.
    destruct (Fs.write_text (fs w0) (schema_path self) cur) as [e|f'] eqn:Hw;
      [exact H0|].
    cbn [snd fs]. apply write_text_same_except in Hw as [_ Hf].
    rewrite Hf by congruence. exact H0.
Qed.

Lemma validate_schema_leaves_no_temp_file_witness :
  files (fs (snd (validate_schema env_accepting_fixed manager_with_llm
                    "model A {" 3 (fresh_world prisma_fs manager_with_llm))))
    !! temp_schema_path manager_with_llm = None.
Proof.
  apply (validate_schema_leaves_no_temp_file env_accepting_fixed
           manager_with_llm "model A {" 3
           (fresh_world prisma_fs manager_with_llm)).
  - intros w0 argv. unfold env_accepting_fixed. cbn [subprocess_run].
    destruct (bool_decide _); eauto.
  - discriminate.
  - reflexivity.
Defined.

(** X9: [validate_schema] makes and removes no directory, and leaves
    every file other than the temporary file and the file at the schema
    path as it was, whatever the result. *)
Theorem validate_schema_frame E self c max w :
  let w' := snd (validate_schema E self c max w) in
  dirs (fs w') = dirs (fs w) /\
  forall q,
    q <> temp_schema_path self -> q <> schema_path self ->
    files (fs w') !! q = files (fs w) !! q.
Proof.
  apply (validate_schema_preserves E self c max
           (fun w' => dirs (fs w') = dirs (fs w) /\
                      forall q,
                        q <> temp_schema_path self -> q <> schema_path self ->
                        files (fs w') !! q = files (fs w) !! q));
    [| | |auto].
  - intros cur w0 [Hd Hf].
    destruct (run_prisma_validate_returns E self cur w0)
      as (p & d & w1 & -> & _ & _ & _ & _ & [Hd1 Hf1] & _).
    cbn [snd]. split; [congruence|].
    intros q Hq1 Hq2. rewrite Hf1 by exact Hq1. auto.
  - intros cur d w0 H0.
    destruct (fix_schema_with_llm_returns E self cur d w0)
      as (s & w1 & -> & _ & _ & _ & _ & Hfs).
    cbn [snd]. now rewrite Hfs.
  - intros cur w0 [Hd Hf]. rewrite set_schema_eq. cbv zeta.
    destruct (Fs.write_text (fs w0) (schema_path self) cur) as [e|f'] eqn:Hw;
      [split; assumption|].
    cbn [snd fs]. apply write_text_same_except in Hw as [Hd1 Hf1].
    split; [congruence|].
    intros q Hq1 Hq2. rewrite Hf1 by exact Hq2. auto.
Qed.

Lemma validate_loop_outcome E self c max fuel :
  forall a cur em w r w',
    validate_loop E fuel self c max a cur em w = (r, w') ->
    loop_outcome E self c max a cur em w r w'.
Proof.
  induction fuel as [|fuel IH]; intros a cur em w r w' Hloop.
  { injection Hloop as <- _. exact I. }
  cbn [validate_loop] in Hloop.
  destruct (Z.ltb_spec a max) as [Hlt|Hge].
  2:{ injection Hloop as <- <-. split; [lia|auto]. }
  destruct (run_prisma_validate_returns E self cur w)
    as (passed & diag & w1 & Hrun & _ & _ & _ & _ & _ & Hdiag).
  unfold bind at 1 in Hloop. rewrite Hrun in Hloop.
  destruct passed.
  - rewrite (Hdiag eq_refl) in Hrun.
    destruct (String.eqb_spec cur c) as [Heq|Hne]; cbn [negb when] in Hloop.
    + injection Hloop as <- <-. split; [reflexivity|].
      exists w, w1. exact Hrun.
    + unfold bind in Hloop.
      destruct (set_schema self cur w1) as [[u|e|] w2] eqn:Hset.
      * injection Hloop as <- <-. split; [reflexivity|].
        exists w, w1. exact Hrun.
      * injection Hloop as <- <-. exists cur, "", w, w1. auto.
      * injection Hloop as <- <-. exact I.
  - destruct ((a + 1 <? max) && bool_decide (is_Some (llm_client self)))
      eqn:Hguard.
    + apply andb_true_iff in Hguard as [Hlt' _]. apply Z.ltb_lt in Hlt'.
      destruct (fix_schema_with_llm_returns E self cur diag w1)
        as (s & w2 & Hfix & _).
      unfold bind in Hloop. rewrite Hfix in Hloop.
      specialize (IH (a + 1) s (Some diag) w2 r w' Hloop).
      destruct r as [[res|a' cur' em']|e|]; cbn [loop_outcome] in *;
        try exact IH.
      destruct IH as [IH _]. split; [intros _; apply IH; exact Hlt'|lia].
    + injection Hloop as <- <-.
      split; [|lia]. intros _. exists diag, w, w1. auto.
Qed.

(** A result with [success = True] follows a validator call that passed
    on the returned candidate. *)
Lemma validate_schema_success_checked E self c max w res w' :
  PyStr.truthy c = true ->
  validate_schema E self c max w = (Return res, w') ->
  success res = true ->
  exists w0 w1,
    _run_prisma_validate E self (fixed_schema res) w0
    = (Return (true, error res), w1).
Proof.
  intros Hc. unfold validate_schema. rewrite Hc. cbn [negb]. unfold bind.
  destruct (validate_loop E (S (Z.to_nat max)) self c max 0 c None w)
    as [r0 w0] eqn:Hloop.
  pose proof (validate_loop_outcome E self c max _ _ _ _ _ _ _ Hloop) as Hout.
  destruct r0 as [[res0|a' cur' [d|]]|e|]; cbn [loop_outcome] in Hout;
    try discriminate.
  - intros [= <- <-] _. apply Hout.
  - intros [= <- <-]. discriminate.
Qed.

(** X10: the result of [validate_schema] on a non-empty candidate tells
    what the validator adapter has said about the very candidate it
    returns: [success] and [error] are the outcome of a validator call on
    [fixed_schema]. *)
Theorem validate_schema_reports_adapter_verdict E self c max w res w' :
  PyStr.truthy c = true ->
  validate_schema E self c max w = (Return res, w') ->
  exists w0 w1,
    _run_prisma_validate E self (fixed_schema res) w0
    = (Return (success res, error res), w1).
Proof.
  intros Hc. unfold validate_schema. rewrite Hc. cbn [negb]. unfold bind.
  destruct (validate_loop E (S (Z.to_nat max)) self c max 0 c None w)
    as [r0 w0] eqn:Hloop.
  pose proof (validate_loop_outcome E self c max _ _ _ _ _ _ _ Hloop) as Hout.
  destruct r0 as [[res0|a' cur' [d|]]|e|]; cbn [loop_outcome] in Hout;
    try discriminate.
  - intros [= <- <-]. destruct Hout as [Hs Hex]. rewrite Hs. exact Hex.
  - intros [= <- <-]. cbn [success error fixed_schema].
    destruct Hout as [Hin Hout].
    destruct (Z.lt_ge_cases 0 max) as [Hlt|Hge].
    + destruct (Hin Hlt) as (d0 & w00 & w1 & [= <-] & Hchk). eauto.
    + destruct (Hout Hge) as [[=] _].
Qed.

Lemma validate_schema_reports_adapter_verdict_witness :
  exists w0 w1,
    _run_prisma_validate env_rejecting manager_with_llm
      "model A { id Int @id }" w0
    = (Return (false, "missing id field"), w1).
Proof.
  pose (out := validate_schema env_rejecting manager_with_llm "model A {" 3
                 (fresh_world prisma_fs manager_with_llm)).
  apply (validate_schema_reports_adapter_verdict env_rejecting
           manager_with_llm "model A {" 3
           (fresh_world prisma_fs manager_with_llm)
           (mkResult false "missing id field" "model A { id Int @id }" 3)
           (snd out));
    [reflexivity | vm_compute; reflexivity].
Defined.

(** X11: [validate_schema] on a non-empty candidate raises in two cases
    only: [max_retries <= 0] (an [UnboundLocalError], the world being left
    as it was), and a [set_schema] that raises on a candidate, other than
    the initial one, on which the validator has just passed.  A failing
    validator or LLM never makes it raise. *)
Theorem validate_schema_raises_only_on_write E self c max w e w' :
  PyStr.truthy c = true ->
  validate_schema E self c max w = (Raise e, w') ->
  (max <= 0 /\ e = unbound_error_message /\ w' = w) \/
  (exists cur d w00 w0,
     _run_prisma_validate E self cur w00 = (Return (true, d), w0) /\
     set_schema self cur w0 = (Raise e, w') /\
     cur <> c).
Proof.
  intros Hc. unfold validate_schema. rewrite Hc. cbn [negb]. unfold bind.
  destruct (validate_loop E (S (Z.to_nat max)) self c max 0 c None w)
    as [r0 w0] eqn:Hloop.
  pose proof (validate_loop_outcome E self c max _ _ _ _ _ _ _ Hloop) as Hout.
  destruct r0 as [[res0|a' cur' [d|]]|e0|]; cbn [loop_outcome] in Hout;
    try discriminate.
  - intros [= <- <-]. left. destruct Hout as [Hin Hout].
    destruct (Z.lt_ge_cases 0 max) as [Hlt|Hge].
    + destruct (Hin Hlt) as (d0 & _ & _ & [=] & _).
    + destruct (Hout Hge) as [_ ->]. split; [lia|auto].
  - intros [= <- <-]. right. exact Hout.
Qed.

Lemma validate_schema_raises_only_on_write_witness :
  let sm := mkSchemaManager ["prisma"] ["missing"; "schema.prisma"]
              ["prisma"; "missing"; "schema.prisma"] (Some a_client) in
  let w := fresh_world prisma_fs sm in
  exists e w',
    validate_schema env_accepting_fixed sm "model A {" 3 w = (Raise e, w') /\
    exists cur d w00 w0,
      _run_prisma_validate env_accepting_fixed sm cur w00
      = (Return (true, d), w0) /\
      set_schema sm cur w0 = (Raise e, w') /\ cur <> "model A {".
Proof.
  cbv zeta.
  pose (sm := mkSchemaManager ["prisma"] ["missing"; "schema.prisma"]
                ["prisma"; "missing"; "schema.prisma"] (Some a_client)).
  pose (out := validate_schema env_accepting_fixed sm "model A {" 3
                 (fresh_world prisma_fs sm)).
  exists (Fs.ENOENT ["prisma"; "missing"; "schema.prisma"]), (snd out).
  assert (Hrun : validate_schema env_accepting_fixed sm "model A {" 3
                   (fresh_world prisma_fs sm)
                 = (Raise (Fs.ENOENT ["prisma"; "missing"; "schema.prisma"]),
                    snd out)).
  { vm_compute. reflexivity. }
  split; [exact Hrun|].
  destruct (validate_schema_raises_only_on_write env_accepting_fixed sm
              "model A {" 3 (fresh_world prisma_fs sm)
              _ _ eq_refl Hrun) as [(Hmax & _)|Hex]; [lia|exact Hex].
Defined.

(** X12: whenever [validate_schema] returns a result for a non-empty
    candidate, [attempts] lies between 1 and [max_retries], it is the
    number of validator calls of the run, the repair requester has been
    called once less, and [set_schema] has been called at most once. *)
Theorem validate_schema_attempts_count_calls E self c max w res w' :
  PyStr.truthy c = true ->
  validate_schema E self c max w = (Return res, w') ->
  1 <= attempts res <= max /\
  Z.of_nat (checks w') = Z.of_nat (checks w) + attempts res /\
  Z.of_nat (repairs w') = Z.of_nat (repairs w) + (attempts res - 1) /\
  (writes w' <= S (writes w))%nat.
Proof.
  intros Hc Hrun.
  destruct (validate_schema_spec E self c max w Hc)
    as (r & w'' & Hrun' & _ & _ & Hpost).
  rewrite Hrun in Hrun'. injection Hrun' as <- <-.
  cbn [run_post] in Hpost. destruct (success res).
  - destruct Hpost as (_ & _ & Ha & Hck & Hrp & Hwr).
    repeat (split; [first [assumption|lia]|]).
    destruct (String.eqb (fixed_schema res) c); destruct Hwr as [Hwr _]; lia.
  - destruct Hpost as (Hwr & _ & Ha & Hck & Hrp & _).
    repeat (split; [first [assumption|lia]|]). lia.
Qed.

Lemma validate_schema_attempts_count_calls_witness :
  exists res w',
    validate_schema env_rejecting manager_with_llm "model A {" 3
      (fresh_world prisma_fs manager_with_llm) = (Return res, w') /\
    attempts res = 3 /\ checks w' = 3%nat /\ repairs w' = 2%nat.
Proof.
  pose (out := validate_schema env_rejecting manager_with_llm "model A {" 3
                 (fresh_world prisma_fs manager_with_llm)).
  assert (Hrun : validate_schema env_rejecting manager_with_llm "model A {" 3
                   (fresh_world prisma_fs manager_with_llm)
                 = (Return (mkResult false "missing id field"
                              "model A { id Int @id }" 3), snd out))
    by (vm_compute; reflexivity).
  clearbody out.
  destruct (validate_schema_attempts_count_calls env_rejecting
              manager_with_llm "model A {" 3
              (fresh_world prisma_fs manager_with_llm) _ _ eq_refl Hrun)
    as (_ & Hck & Hrp & _).
  change (Z.of_nat (checks (fresh_world prisma_fs manager_with_llm)))
    with 0 in Hck.
  change (Z.of_nat (repairs (fresh_world prisma_fs manager_with_llm)))
    with 0 in Hrp.
  cbn [attempts] in Hck, Hrp.
  eexists _, _. split; [exact Hrun|]. split; [reflexivity|]. split; lia.
Defined.

(** ** More about the front end *)

Lemma generation_call_eq E agent state w :
  chat_completion E (Agent.llm_client agent)
    (schema_prompt (Agent.user_input state))
    (Some (schema_system_message E)) w =
  let w1 := generation_world E agent state w in
  match llm_invoke E w1 (Agent.llm_client agent)
          (generation_messages E (Agent.user_input state)) with
  | InvokeRaises e => (Raise e, w1)
  | NoResponse => (Return "", w1)
  | Response content => (Return content, w1)
  end.
Proof.
  unfold chat_completion.
  change (PyStr.truthy (schema_system_message E)) with true. cbv iota.
  rewrite generate_response_eq. reflexivity.
Qed.

(** [_process_input], case by case. *)
Lemma process_input_eq E agent state w :
  _process_input E agent state w =
  match chat_completion E (Agent.llm_client agent)
          (schema_prompt (Agent.user_input state))
          (Some (schema_system_message E)) w with
  | (Return reply, w1) =>
      let cand := strip_fences reply in
      let sm := with_llm_client (schema_manager w1) (Agent.llm_client agent) in
      match validate_schema E sm cand 3
              (orchestration_world (Agent.llm_client agent) w1) with
      | (Return res, w3) =>
          if success res then
            match set_schema sm (fixed_schema res) w3 with
            | (Return _, w4) =>
                (Return (Agent.set_error
                           (Agent.set_response (Agent.del_error state)
                              (success_response sm res)) None), w4)
            | (Raise e, w4) => (Return (front_error state e), w4)
            | (OutOfFuel, w4) => (OutOfFuel, w4)
            end
          else
            (Return (Agent.set_error
                       (Agent.set_response (Agent.del_error state)
                          (failure_response res cand))
                       (Some (error res))), w3)
      | (Raise e, w3) => (Return (front_error state e), w3)
      | (OutOfFuel, w3) => (OutOfFuel, w3)
      end
  | (Raise e, w1) => (Return (front_error state e), w1)
  | (OutOfFuel, w1) => (OutOfFuel, w1)
  end.
Proof.
  unfold _process_input. run_monad.
  change (Agent.user_input (Agent.del_error state))
    with (Agent.user_input state).
  destruct (chat_completion E (Agent.llm_client agent) _ _ w)
    as [[reply|e|] w1]; [|reflexivity..].
  unfold set_schema_manager_llm_client, get_schema_manager.
  cbn [fs schema_manager trace]. cbv zeta.
  fold (with_llm_client (schema_manager w1) (Agent.llm_client agent)).
  change (PyStr.strip (extract_code_block reply)) with (strip_fences reply).
  change (mkWorld (fs w1)
            (with_llm_client (schema_manager w1) (Agent.llm_client agent))
            (trace w1))
    with (orchestration_world (Agent.llm_client agent) w1).
  destruct (validate_schema E _ (strip_fences reply) 3 _) as [[res|e|] w3];
    [|reflexivity..].
  destruct (success res); [|reflexivity].
  run_monad.
  destruct (set_schema _ (fixed_schema res) w3) as [[u|e|] w4]; reflexivity.
Qed.

Lemma strip_starts_nonspace a t :
  PyStr.isspace a = false -> PyStr.strip (String a t) <> "".
Proof.
  intros Ha. unfold PyStr.strip. cbn [PyStr.lstrip]. rewrite Ha.
  rewrite rstrip_cons. destruct (PyStr.rstrip t); [rewrite Ha|]; discriminate.
Qed.

Lemma chat_completion_not_out_of_fuel E client u s w :
  fst (chat_completion E client u s w) <> OutOfFuel.
Proof.
  unfold chat_completion. rewrite generate_response_eq. cbv zeta.
  destruct (llm_invoke E _ client _); discriminate.
Qed.

Lemma set_schema_not_out_of_fuel self c w :
  fst (set_schema self c w) <> OutOfFuel.
Proof.
  rewrite set_schema_eq. cbv zeta.
  destruct (Fs.write_text _ _ _); discriminate.
Qed.

Lemma front_error_response_not_blank state e :
  PyStr.strip (Agent.response (front_error state e)) <> "".
Proof.
  unfold front_error. cbn [Agent.response Agent.set_response].
  rewrite append_cons. now apply strip_starts_nonspace.
Qed.

(** X13: [_process_input] never raises: it always returns a state, in which
    the key ["error"] is set, the response is not blank, and the user's
    input, the messages and the metadata are as they were. *)
Theorem process_input_always_returns E agent state w :
  exists st' w',
    _process_input E agent state w = (Return st', w') /\
    is_Some (Agent.error st') /\
    PyStr.strip (Agent.response st') <> "" /\
    Agent.user_input st' = Agent.user_input state /\
    Agent.messages st' = Agent.messages state /\
    Agent.metadata st' = Agent.metadata state.
Proof.
  rewrite process_input_eq.
  pose proof (chat_completion_not_out_of_fuel E (Agent.llm_client agent)
                (schema_prompt (Agent.user_input state))
                (Some (schema_system_message E)) w) as Hchat.
  destruct (chat_completion E (Agent.llm_client agent) _ _ w)
    as [[reply|e|] w1]; [| |now contradiction Hchat].
  2:{ eexists _, _. split; [reflexivity|].
      split; [cbn; eauto|]. split; [apply front_error_response_not_blank|].
      repeat split. }
  cbv zeta.
  pose proof (validate_schema_total E
                (with_llm_client (schema_manager w1) (Agent.llm_client agent))
                (strip_fences reply) 3
                (orchestration_world (Agent.llm_client agent) w1)) as Hval.
  destruct (validate_schema E _ (strip_fences reply) 3 _) as [[res|e|] w3];
    [| |now contradiction Hval].
  2:{ eexists _, _. split; [reflexivity|].
      split; [cbn; eauto|]. split; [apply front_error_response_not_blank|].
      repeat split. }
  destruct (success res).
  - pose proof (set_schema_not_out_of_fuel
                  (with_llm_client (schema_manager w1) (Agent.llm_client agent))
                  (fixed_schema res) w3) as Hset.
    destruct (set_schema _ (fixed_schema res) w3) as [[u|e|] w4];
      [| |now contradiction Hset].
    + eexists _, _. split; [reflexivity|]. split; [cbn; eauto|].
      split; [|repeat split].
      cbn [Agent.response Agent.set_response Agent.set_error].
      unfold success_response. rewrite append_cons.
      now apply strip_starts_nonspace.
    + eexists _, _. split; [reflexivity|].
      split; [cbn; eauto|]. split; [apply front_error_response_not_blank|].
      repeat split.
  - eexists _, _. split; [reflexivity|]. split; [cbn; eauto|].
    split; [|repeat split].
    cbn [Agent.response Agent.set_response Agent.set_error].
    unfold failure_response. rewrite append_cons.
    now apply strip_starts_nonspace.
Qed.

(** X14: when the chat model raises on the generation request,
    [_process_input] returns with the exception's text as the error and in
    the response, and nothing else has happened: no validator call, no
    write, the file system and the shared schema manager as they were. *)
Theorem process_input_generation_error E agent state w e :
  llm_invoke E (generation_world E agent state w) (Agent.llm_client agent)
    (generation_messages E (Agent.user_input state)) = InvokeRaises e ->
  exists st' w',
    _process_input E agent state w = (Return st', w') /\
    Agent.error st' = Some (Some (Exn.str e)) /\
    Agent.response st'
    = "I encountered an error while generating the schema: " +:+ Exn.str e /\
    checks w' = checks w /\ writes w' = writes w /\
    fs w' = fs w /\ schema_manager w' = schema_manager w.
Proof.
  intros Hraise. rewrite process_input_eq, generation_call_eq. cbv zeta.
  rewrite Hraise. eexists _, _. split; [reflexivity|]. repeat split.
Qed.

Lemma process_input_generation_error_witness :
  exists st' w',
    _process_input env_llm_down an_agent a_state
      (fresh_world prisma_fs default_manager) = (Return st', w') /\
    Agent.error st' = Some (Some "Connection error.") /\
    checks w' = 0%nat /\ fs w' = prisma_fs.
Proof.
  destruct (process_input_generation_error env_llm_down an_agent a_state
              (fresh_world prisma_fs default_manager)
              (Exn.mk Exn.ConnectionError "Connection error.") eq_refl)
    as (st' & w' & Hrun & He & _ & Hck & _ & Hfs & _).
  exists st', w'. repeat split; assumption.
Defined.

(** X15: when what the chat model has answered is empty once the fences
    and the white space are removed, [_process_input] reports the failure
    "Schema content is empty" after 0 attempts without calling the
    validator, the repair requester or [set_schema]. *)
Theorem process_input_empty_generation E agent state w reply w1 :
  chat_completion E (Agent.llm_client agent)
    (schema_prompt (Agent.user_input state))
    (Some (schema_system_message E)) w = (Return reply, w1) ->
  strip_fences reply = "" ->
  exists st',
    _process_input E agent state w
    = (Return st', orchestration_world (Agent.llm_client agent) w1) /\
    Agent.error st' = Some (Some "Schema content is empty") /\
    Agent.response st'
    = failure_response (mkResult false "Schema content is empty" "" 0) "" /\
    checks w1 = checks w /\ repairs w1 = repairs w /\ writes w1 = writes w /\
    fs w1 = fs w.
Proof.
  intros Hchat Hempty. rewrite process_input_eq, Hchat. cbv zeta.
  rewrite Hempty, validate_schema_empty. cbn [success].
  eexists. split; [reflexivity|]. split; [reflexivity|].
  split; [reflexivity|].
  rewrite generation_call_eq in Hchat. cbv zeta in Hchat.
  destruct (llm_invoke E _ _ _); injection Hchat as _ <-; repeat split.
Qed.

Lemma process_input_empty_generation_witness :
  let E := mkEnv (fun _ _ => inr (mkCompleted 0 "" ""))
                 (fun _ _ _ => Response "Use the ```prisma``` syntax.")
                 "postgresql://localhost/db" ["home"; "app"] in
  exists st' w',
    _process_input E an_agent a_state (fresh_world prisma_fs default_manager)
    = (Return st', w') /\
    Agent.error st' = Some (Some "Schema content is empty") /\
    checks w' = 0%nat.
Proof.
  cbv zeta.
  pose (E := mkEnv (fun _ _ => inr (mkCompleted 0 "" ""))
                   (fun _ _ _ => Response "Use the ```prisma``` syntax.")
                   "postgresql://localhost/db" ["home"; "app"]).
  pose (w1 := snd (chat_completion E a_client
                     (schema_prompt "a blog with posts")
                     (Some (schema_system_message E))
                     (fresh_world prisma_fs default_manager))).
  destruct (process_input_empty_generation E an_agent a_state
              (fresh_world prisma_fs default_manager)
              "Use the ```prisma``` syntax." w1)
    as (st' & Hrun & He & _);
    [vm_compute; reflexivity | vm_compute; reflexivity |].
  exists st', (orchestration_world a_client w1).
  split; [exact Hrun|]. split; [exact He|]. vm_compute. reflexivity.
Defined.

(** X16: when [_process_input] reports success (the error is [None]), the
    file at the schema path of the shared schema manager holds exactly the
    schema shown in the response, on which the validator has passed; the
    shared schema manager keeps its paths and has the agent's LLM client. *)
Theorem process_input_success_is_persisted E agent state w st' w' :
  _process_input E agent state w = (Return st', w') ->
  Agent.error st' = Some None ->
  exists res,
    success res = true /\
    Agent.response st' = success_response (schema_manager w') res /\
    files (fs w') !! schema_path (schema_manager w') = Some (fixed_schema res) /\
    schema_manager w'
    = with_llm_client (schema_manager w) (Agent.llm_client agent) /\
    exists w0 w1,
      _run_prisma_validate E (schema_manager w') (fixed_schema res) w0
      = (Return (true, ""), w1).
Proof.
  rewrite process_input_eq.
  destruct (chat_completion E (Agent.llm_client agent) _ _ w)
    as [[reply|e|] w1] eqn:Hchat; [| intros [= <- _]; discriminate
                                   | discriminate].
  cbv zeta.
  assert (Hsm1 : schema_manager w1 = schema_manager w).
  { rewrite generation_call_eq in Hchat. cbv zeta in Hchat.
    destruct (llm_invoke E _ _ _); injection Hchat as _ <-; reflexivity. }
  set (sm := with_llm_client (schema_manager w1) (Agent.llm_client agent)).
  destruct (validate_schema E sm (strip_fences reply) 3 _)
    as [[res|e|] w3] eqn:Hval; [| intros [= <- _]; discriminate
                                | discriminate].
  destruct (success res) eqn:Hs; [|intros [= <- _]; discriminate].
  assert (Hc : PyStr.truthy (strip_fences reply) = true).
  { destruct (strip_fences reply); [|reflexivity].
    rewrite validate_schema_empty in Hval. injection Hval as <- _.
    discriminate. }
  assert (Hsm3 : schema_manager w3 = sm).
  { destruct (validate_schema_spec E sm (strip_fences reply) 3
                (orchestration_world (Agent.llm_client agent) w1) Hc)
      as (r & w'' & Hval' & Hsm & _).
    rewrite Hval in Hval'. injection Hval' as _ <-. exact Hsm. }
  destruct (validate_schema_success_checked E sm (strip_fences reply) 3
              _ res w3 Hc Hval Hs) as (w0 & wv & Hverdict).
  rewrite set_schema_eq. cbv zeta.
  destruct (Fs.write_text (fs w3) (schema_path sm) (fixed_schema res))
    as [e|f'] eqn:Hw; [intros [= <- _]; discriminate|].
  intros [= <- <-] _. cbn [schema_manager fs]. rewrite Hsm3.
  exists res. split; [exact Hs|]. split; [reflexivity|].
  split; [eapply written_path_exists; exact Hw|].
  split; [unfold sm; now rewrite Hsm1|].
  destruct (validate_schema_spec E sm (strip_fences reply) 3
              (orchestration_world (Agent.llm_client agent) w1) Hc)
    as (r & w'' & Hval' & _ & _ & Hpost).
  rewrite Hval in Hval'. injection Hval' as <- <-.
  cbn [run_post] in Hpost. rewrite Hs in Hpost.
  destruct Hpost as (_ & Herr & _).
  rewrite Herr in Hverdict. eauto.
Qed.

Lemma process_input_success_is_persisted_witness :
  let out := _process_input env_accepting an_agent a_state
               (fresh_world prisma_fs default_manager) in
  exists res,
    success res = true /\
    files (fs (snd out)) !! ["prisma"; "schema.prisma"]
    = Some (fixed_schema res) /\
    fixed_schema res = "model A { id Int @id }".
Proof.
  cbv zeta.
  pose (out := _process_input env_accepting an_agent a_state
                 (fresh_world prisma_fs default_manager)).
  assert (Hrun : _process_input env_accepting an_agent a_state
                   (fresh_world prisma_fs default_manager)
                 = (fst out, snd out)) by apply surjective_pairing.
  assert (Hst : exists st', fst out = Return st' /\ Agent.error st' = Some None
                            /\ Agent.response st'
                               = success_response manager_with_llm
                                   (mkResult true "" "model A { id Int @id }" 1)).
  { eexists. vm_compute. repeat split. }
  destruct Hst as (st' & Hfst & Herr & Hresp). rewrite Hfst in Hrun.
  destruct (process_input_success_is_persisted env_accepting an_agent a_state
              (fresh_world prisma_fs default_manager) st' (snd out)
              Hrun Herr) as (res & Hs & Hr & Hfile & Hsm & _).
  assert (Hpath : schema_path (schema_manager (snd out))
                  = ["prisma"; "schema.prisma"]) by (rewrite Hsm; reflexivity).
  rewrite Hpath in Hfile.
  exists res. split; [exact Hs|]. split; [exact Hfile|].
  assert (Hstored : files (fs (snd out)) !! ["prisma"; "schema.prisma"]
                    = Some "model A { id Int @id }")
    by (vm_compute; reflexivity).
  rewrite Hstored in Hfile. now injection Hfile.
Defined.

(** ** More about the artifact store *)

Lemma ancestors_shorter (p q : path) :
  In q (Path.ancestors p) -> (length q < length p)%nat.
Proof.
  revert q. induction p as [|x p IH]; intros q; [intros []|].
  destruct p as [|y r].
  { cbn [Path.ancestors]. intros Hin. destruct Hin. }
  rewrite ancestors_cons2. intros Hin. destruct Hin as [Heq|Hin].
  - subst q. simpl. lia.
  - apply in_map_iff in Hin as (q' & Heq & Hq'). subst q.
    apply IH in Hq'. simpl in *. lia.
Qed.

Lemma existsb_agree {A} (P Q : A -> bool) l :
  (forall x, In x l -> P x = Q x) -> existsb P l = existsb Q l.
Proof.
  induction l as [|x l IH]; [reflexivity|]. intros H. cbn [existsb].
  rewrite (H x) by now left. rewrite IH; [reflexivity|].
  intros y Hy. apply H. now right.
Qed.

Lemma parent_error_after_write f p c f1 :
  Fs.write_text f p c = inr f1 -> Fs.parent_error f1 p = None.
Proof.
  intros Hw. pose proof (write_text_same_except _ _ _ _ Hw) as [Hd Hf].
  unfold Fs.write_text in Hw.
  destruct (Fs.is_dir f p); [discriminate|].
  destruct (Fs.parent_error f p) eqn:Hp; [discriminate|].
  unfold Fs.parent_error in *.
  assert (Hex : existsb (Fs.is_file f1) (Path.ancestors p)
                = existsb (Fs.is_file f) (Path.ancestors p)).
  { assert (Hall : forall q, In q (Path.ancestors p) ->
                             Fs.is_file f1 q = Fs.is_file f q).
    { intros q Hq. apply ancestors_shorter in Hq.
      unfold Fs.is_file, Fs.is_dir. rewrite Hd, Hf; [reflexivity|].
      intros ->. lia. }
    apply existsb_agree. exact Hall. }
  rewrite Hex. unfold Fs.is_dir in *. rewrite Hd.
  destruct (existsb _ _); [discriminate|].
  destruct (bool_decide (Path.parent p = []) ||
            bool_decide (Path.parent p ∈ dirs f)); [reflexivity|discriminate].
Qed.

(** X17: once a [set_schema] has returned, the next [set_schema] returns
    too and replaces the whole content: [get_schema] then gives the second
    content (as read in text mode), and no other file has changed. *)
Theorem set_schema_overwrites self X Y w w1 :
  set_schema self X w = (Return tt, w1) ->
  exists w2,
    set_schema self Y w1 = (Return tt, w2) /\
    get_schema self w2 = (Return (Fs.universal_newlines Y), w2) /\
    files (fs w2) !! schema_path self = Some Y /\
    same_except (schema_path self) (fs w) (fs w2).
Proof.
  rewrite !set_schema_eq. cbv zeta.
  destruct (Fs.write_text (fs w) (schema_path self) X) as [e|f1] eqn:Hw1;
    [discriminate|].
  intros [= <-]. cbn [fs schema_manager trace].
  destruct (written_path_exists _ _ _ _ Hw1) as (Hd1 & _ & _).
  pose proof (parent_error_after_write _ _ _ _ Hw1) as Hp1.
  destruct (Fs.write_text f1 (schema_path self) Y) as [e|f2] eqn:Hw2.
  { unfold Fs.write_text in Hw2. rewrite Hd1, Hp1 in Hw2. discriminate. }
  eexists. split; [reflexivity|]. cbn [fs].
  split; [apply (get_schema_after_write f1); exact Hw2|].
  split; [eapply written_path_exists; exact Hw2|].
  eapply same_except_trans; eapply write_text_same_except; eassumption.
Qed.

Lemma set_schema_overwrites_witness :
  exists w1 w2,
    set_schema default_manager "model A { }"
      (fresh_world prisma_fs default_manager) = (Return tt, w1) /\
    set_schema default_manager "model B { }" w1 = (Return tt, w2) /\
    get_schema default_manager w2 = (Return "model B { }", w2).
Proof.
  pose (o1 := set_schema default_manager "model A { }"
                (fresh_world prisma_fs default_manager)).
  assert (H1 : set_schema default_manager "model A { }"
                 (fresh_world prisma_fs default_manager) = (Return tt, snd o1))
    by (vm_compute; reflexivity).
  destruct (set_schema_overwrites default_manager "model A { }" "model B { }"
              _ _ H1) as (w2 & H2 & Hget & _).
  exists (snd o1), w2. split; [exact H1|]. split; [exact H2|exact Hget].
Defined.

Lemma mkdir_existing n f p :
  Fs.is_dir f p = true -> Fs.mkdir_parents_upto n f p = inr f.
Proof.
  intros Hd.
  assert (Hmk : Fs.os_mkdir f p = inl (Fs.EEXIST p)).
  { unfold Fs.os_mkdir, Fs.path_exists. now rewrite Hd. }
  destruct n; cbn [Fs.mkdir_parents_upto]; rewrite Hmk;
    change (Exn.isinstance (Fs.EEXIST p) Exn.FileNotFoundError) with false;
    cbn [Fs.mkdir_exist_ok]; now rewrite Hd.
Qed.

(** X18: constructing a manager on a directory that exists changes
    nothing in the world; in particular a second construction after a
    first one that returned leaves the world of the first. *)
Theorem init_twice_changes_nothing dir file llm file' llm' w sm w1 :
  __init__ dir file llm w = (Return sm, w1) ->
  __init__ dir file' llm' w1
  = (Return (mkSchemaManager dir file' (Path.div dir file') llm'), w1).
Proof.
  destruct w as [f sm0 t]. unfold __init__ at 1. run_monad.
  unfold Fs.mkdir_parents.
  destruct (Fs.mkdir_parents_upto (length dir) f dir) as [e|f'] eqn:Hmk;
    run_monad; [discriminate|].
  intros [= _ <-]. apply mkdir_parents_post in Hmk as [Hd _].
  unfold __init__. run_monad. unfold Fs.mkdir_parents.
  rewrite (mkdir_existing _ _ _ Hd). reflexivity.
Qed.

Lemma init_twice_changes_nothing_witness :
  exists sm w1,
    __init__ ["data"; "prisma"] ["schema.prisma"] None
      (fresh_world empty_fs default_manager) = (Return sm, w1) /\
    __init__ ["data"; "prisma"] ["other.prisma"] (Some a_client) w1
    = (Return (mkSchemaManager ["data"; "prisma"] ["other.prisma"]
                 ["data"; "prisma"; "other.prisma"] (Some a_client)), w1).
Proof.
  pose (o := __init__ ["data"; "prisma"] ["schema.prisma"] None
               (fresh_world empty_fs default_manager)).
  assert (H1 : __init__ ["data"; "prisma"] ["schema.prisma"] None
                 (fresh_world empty_fs default_manager)
               = (Return (mkSchemaManager ["data"; "prisma"] ["schema.prisma"]
                            ["data"; "prisma"; "schema.prisma"] None), snd o))
    by (vm_compute; reflexivity).
  eexists _, (snd o). split; [exact H1|].
  apply (init_twice_changes_nothing _ _ _ ["other.prisma"] (Some a_client)
           _ _ _ H1).
Defined.

Lemma parent_not_longer (p : path) :
  (length (Path.parent p) <= length p)%nat.
Proof.
  destruct p as [|x p]; [simpl; lia|].
  pose proof (parent_shorter (x :: p)) as H. specialize (H ltac:(discriminate)).
  lia.
Qed.

Lemma os_mkdir_other f p f' q :
  Fs.os_mkdir f p = inr f' -> q <> p -> Fs.is_dir f' q = Fs.is_dir f q.
Proof.
  unfold Fs.os_mkdir. destruct (Fs.path_exists f p); [discriminate|].
  destruct (Fs.parent_error f p); [discriminate|]. intros Heq Hne.
  injection Heq as <-. unfold Fs.is_dir. cbn [dirs]. f_equal.
  apply bool_decide_ext. rewrite elem_of_union, elem_of_singleton. tauto.
Qed.

(** [mkdir(parents=True, exist_ok=True)] on [p] makes no directory with
    more components than [p]. *)
Lemma mkdir_parents_longer n :
  forall f p f' q,
    Fs.mkdir_parents_upto n f p = inr f' ->
    (length p < length q)%nat ->
    Fs.is_dir f' q = Fs.is_dir f q.
Proof.
  assert (Hne : forall (p q : path), (length p < length q)%nat -> q <> p)
    by (intros p q Hlen ->; lia).
  induction n as [|n IH]; intros f p f' q; cbn [Fs.mkdir_parents_upto];
    destruct (Fs.os_mkdir f p) as [e|f0] eqn:Hmk;
    try (intros [= <-] Hlen; eapply os_mkdir_other; eauto).
  - destruct (Exn.isinstance e _).
    + destruct (bool_decide _); discriminate.
    + intros H _. apply mkdir_exist_ok_post in H as [?|[-> ?]];
        [discriminate|reflexivity].
  - destruct (Exn.isinstance e _).
    + destruct (bool_decide _); [discriminate|].
      destruct (Fs.mkdir_parents_upto n f (Path.parent p)) as [e'|f1] eqn:Hrec;
        [discriminate|].
      intros H Hlen. pose proof (parent_not_longer p) as Hpar.
      rewrite <- (IH _ _ _ q Hrec) by lia.
      apply mkdir_exist_ok_post in H as [H|[-> ?]]; [|reflexivity].
      eapply os_mkdir_other; eauto.
    + intros H _. apply mkdir_exist_ok_post in H as [?|[-> ?]];
        [discriminate|reflexivity].
Qed.

(** X19: a manager constructed on a directory that no regular file
    blocks, with a one-component file name at which no directory stands,
    can write at once: the constructor returns, [set_schema] returns, and
    [get_schema] gives the content back (as read in text mode), whatever
    directories were missing before. *)
Theorem construct_write_read dir name llm X w :
  clear_of_files (fs w) dir = true ->
  Fs.is_dir (fs w) (dir ++ [name]) = false ->
  let sm := mkSchemaManager dir [name] (dir ++ [name]) llm in
  exists w1 w2,
    __init__ dir [name] llm w = (Return sm, w1) /\
    set_schema sm X w1 = (Return tt, w2) /\
    get_schema sm w2 = (Return (Fs.universal_newlines X), w2).
Proof.
  intros Hclear Hnodir sm. destruct w as [f sm0 t]. cbn [fs] in *.
  apply clear_of_files_no_file_on in Hclear.
  destruct (mkdir_parents_total (length dir) f dir)
    as (f' & Hmk & Hd & Hf & Hsub); [lia | exact Hclear |].
  assert (Hnodir' : Fs.is_dir f' (dir ++ [name]) = false).
  { rewrite (mkdir_parents_longer _ _ _ _ (dir ++ [name]) Hmk);
      [exact Hnodir|]. rewrite length_app. simpl. lia. }
  assert (Hpar : Fs.parent_error f' (dir ++ [name]) = None).
  { apply parent_error_below_dir; [|exact Hd].
    eapply no_file_on_mono; eassumption. }
  assert (Hw : Fs.write_text f' (schema_path sm) X
               = inr (mkFS (dirs f') (<[(dir ++ [name])%list := X]> (files f')))).
  { unfold Fs.write_text, sm. cbn [schema_path].
    now rewrite Hnodir', Hpar. }
  unfold __init__. run_monad. unfold Fs.mkdir_parents. rewrite Hmk. run_monad.
  eexists _, _. split; [reflexivity|].
  rewrite set_schema_eq. cbn [fs schema_manager trace]. cbv zeta.
  rewrite Hw. split; [reflexivity|].
  eapply (get_schema_after_write f'). exact Hw.
Qed.

Lemma construct_write_read_witness :
  exists w1 w2,
    __init__ ["data"; "prisma"] ["schema.prisma"] None
      (fresh_world empty_fs default_manager)
    = (Return (mkSchemaManager ["data"; "prisma"] ["schema.prisma"]
                 ["data"; "prisma"; "schema.prisma"] None), w1) /\
    set_schema (mkSchemaManager ["data"; "prisma"] ["schema.prisma"]
                  ["data"; "prisma"; "schema.prisma"] None)
      "model A { }" w1 = (Return tt, w2) /\
    get_schema (mkSchemaManager ["data"; "prisma"] ["schema.prisma"]
                  ["data"; "prisma"; "schema.prisma"] None) w2
    = (Return "model A { }", w2).
Proof.
  apply (construct_write_read ["data"; "prisma"] "schema.prisma" None
           "model A { }" (fresh_world empty_fs default_manager));
    reflexivity.
Defined.

(** ** The messages of [chat_completion] *)

Lemma entry_message_not_system msg m :
  entry_message msg = Some m -> is_system m = false.
Proof.
  unfold entry_message. destruct (msg !! "role") as [role|]; [|discriminate].
  destruct (String.eqb role "user").
  - destruct (msg !! "content"); [|discriminate]. now intros [= <-].
  - destruct (String.eqb role "assistant"); [|discriminate].
    destruct (msg !! "content"); [|discriminate]. now intros [= <-].
Qed.

Lemma omap_entry_message_no_system h :
  forallb (fun m => negb (is_system m)) (omap entry_message h) = true.
Proof.
  induction h as [|msg h IH]; [reflexivity|]. cbn [omap list_omap].
  destruct (entry_message msg) as [m|] eqn:Hm; [|exact IH].
  cbn [forallb]. rewrite (entry_message_not_system _ _ Hm). exact IH.
Qed.

Lemma omap_entry_message_length h :
  (length (omap entry_message h) <= length h)%nat.
Proof.
  induction h as [|msg h IH]; [reflexivity|]. cbn [omap list_omap].
  destruct (entry_message msg); simpl; lia.
Qed.

(** The loop over the history appends, to the messages it starts from,
    the messages of the entries in their order. *)
Lemma history_messages_appends h :
  forall acc r,
    history_messages h acc = inr r ->
    r = (acc ++ omap entry_message h)%list.
Proof.
  induction h as [|msg h IH]; intros acc r;
    cbn [history_messages omap list_omap].
  - intros [= <-]. now rewrite app_nil_r.
  - unfold dict_get, entry_message.
    destruct (msg !! "role") as [role|]; [|discriminate].
    destruct (String.eqb role "user").
    + destruct (msg !! "content") as [content|]; [|discriminate].
      intros H. apply IH in H as ->. cbn [fmap option_fmap option_map].
      now rewrite <- app_assoc.
    + destruct (String.eqb role "assistant").
      * destruct (msg !! "content") as [content|]; [|discriminate].
        intros H. apply IH in H as ->. cbn [fmap option_fmap option_map].
        now rewrite <- app_assoc.
      * intros H. apply IH in H as ->. reflexivity.
Qed.

(** X20: the list of messages that [chat_completion] builds is the system
    message, if a non-empty one is given; then, for the entries of the
    history in their order, a [HumanMessage] of the entry's content for
    the role [user], an [AIMessage] of the entry's content for the role
    [assistant] and nothing for an entry of any other role; then the
    user's message last.  So the part that comes from the history holds
    no system message and at most one message for each entry. *)
Theorem build_messages_shape u s h msgs :
  build_messages u s h = inr msgs ->
  let hist := omap entry_message (default [] h) in
  msgs = (system_part s ++ hist ++ [HumanMessage u])%list /\
  forallb (fun m => negb (is_system m)) hist = true /\
  (length hist <= length (default [] h))%nat.
Proof.
  intros Hb hist. subst hist.
  split; [|split;
    [apply omap_entry_message_no_system | apply omap_entry_message_length]].
  revert Hb. unfold build_messages. cbv zeta.
  change (match s with
          | Some s0 => if PyStr.truthy s0 then ([] ++ [SystemMessage s0])%list
                       else []
          | None => []
          end) with (system_part s).
  destruct h as [[|msg rest]|]; cbn [default].
  - now intros [= <-].
  - destruct (history_messages (msg :: rest) (system_part s)) as [e|r] eqn:Hh;
      [discriminate|].
    intros [= <-]. apply history_messages_appends in Hh as ->.
    now rewrite <- app_assoc.
  - now intros [= <-].
Qed.

Lemma build_messages_shape_witness :
  let h := [ {[ "role" := "user"; "content" := "Hello" ]};
             {[ "role" := "tool"; "content" := "ignored" ]};
             {[ "role" := "assistant"; "content" := "Hi" ]};
             ({[ "role" := "system" ]} : gmap string string);
             {[ "role" := "user"; "content" := "More" ]} ] in
  let msgs := [SystemMessage "Be brief."; HumanMessage "Hello"; AIMessage "Hi";
               HumanMessage "More"; HumanMessage "And now?"] in
  build_messages "And now?" (Some "Be brief.") (Some h) = inr msgs /\
  omap entry_message h
  = [HumanMessage "Hello"; AIMessage "Hi"; HumanMessage "More"] /\
  let hist := omap entry_message (default [] (Some h)) in
  msgs = (system_part (Some "Be brief.") ++ hist ++ [HumanMessage "And now?"])%list /\
  forallb (fun m => negb (is_system m)) hist = true /\
  (length hist <= length (default [] (Some h)))%nat.
Proof.
  cbv zeta. split; [vm_compute; reflexivity|]. split; [vm_compute; reflexivity|].
  apply (build_messages_shape "And now?" (Some "Be brief.")
           (Some [ {[ "role" := "user"; "content" := "Hello" ]};
                   {[ "role" := "tool"; "content" := "ignored" ]};
                   {[ "role" := "assistant"; "content" := "Hi" ]};
                   ({[ "role" := "system" ]} : gmap string string);
                   {[ "role" := "user"; "content" := "More" ]} ])).
  vm_compute. reflexivity.
Defined.

Lemma history_messages_ok h :
  forall acc,
    (forallb entry_ok h = true -> exists r, history_messages h acc = inr r) /\
    (forallb entry_ok h = false ->
     exists k, history_messages h acc = inl (mkKeyError k) /\
               (k = "role" \/ k = "content")).
Proof.
  induction h as [|msg h IH]; intros acc; cbn [forallb history_messages].
  - split; [eauto|discriminate].
  - unfold entry_ok at 1 3, dict_get.
    destruct (msg !! "role") as [role|]; cbn [andb]; [|split; [discriminate|eauto]].
    destruct (String.eqb role "user"); cbn [orb].
    + destruct (msg !! "content") as [content|].
      * rewrite bool_decide_eq_true_2 by eauto. cbn [andb]. apply IH.
      * rewrite bool_decide_eq_false_2 by (intros [? ?]; discriminate).
        cbn [andb]. split; [discriminate|eauto].
    + destruct (String.eqb role "assistant").
      * destruct (msg !! "content") as [content|].
        -- rewrite bool_decide_eq_true_2 by eauto. cbn [andb]. apply IH.
        -- rewrite bool_decide_eq_false_2 by (intros [? ?]; discriminate).
           cbn [andb]. split; [discriminate|eauto].
      * cbn [andb]. apply IH.
Qed.

(** X21: [chat_completion] with a history goes on to the chat model
    exactly when every entry has a role and, for the roles [user] and
    [assistant], a content; otherwise it raises the [KeyError] of the key
    ["role"] or ["content"] before the chat model is called, the world
    being left as it was. *)
Theorem chat_completion_history_key_errors E self u s h w :
  (forallb entry_ok h = true ->
   exists msgs,
     build_messages u s (Some h) = inr msgs /\
     chat_completion_history E self u s (Some h) w
     = generate_response E self msgs w) /\
  (forallb entry_ok h = false ->
   exists k,
     (k = "role" \/ k = "content") /\
     chat_completion_history E self u s (Some h) w
     = (Raise (key_error_exn (mkKeyError k)), w)).
Proof.
  unfold chat_completion_history, build_messages. cbv zeta.
  destruct h as [|msg rest].
  - split; [intros _; eexists; split; reflexivity|discriminate].
  - destruct (history_messages_ok (msg :: rest)
                (match s with
                 | Some s0 => if PyStr.truthy s0
                              then ([] ++ [SystemMessage s0])%list else []
                 | None => []
                 end)) as [Hok Hbad].
    split.
    + intros H. destruct (Hok H) as [r ->]. eexists. split; reflexivity.
    + intros H. destruct (Hbad H) as (k & -> & Hk). exists k.
      split; [exact Hk|reflexivity].
Qed.

Lemma chat_completion_history_key_errors_witness :
  exists k,
    (k = "role" \/ k = "content") /\
    chat_completion_history env_accepting a_client "And now?" None
      (Some [ {[ "role" := "user"; "content" := "Hello" ]};
              {[ "role" := "assistant" ]} ])
      (fresh_world prisma_fs default_manager)
    = (Raise (key_error_exn (mkKeyError k)),
       fresh_world prisma_fs default_manager).
Proof.
  apply (chat_completion_history_key_errors env_accepting a_client
           "And now?" None
           [ {[ "role" := "user"; "content" := "Hello" ]};
             {[ "role" := "assistant" ]} ]
           (fresh_world prisma_fs default_manager)).
  vm_compute. reflexivity.
Defined.

(** ** The node [_generate_response] *)

(** X22: [_generate_response] never raises; the response it leaves is
    never blank; the user's input, the messages and the metadata are as
    they were and the file system is untouched.  When the state already
    holds a non-empty error, the chat model is not called: the world and
    the error are as they were. *)
Theorem generate_response_node_always_answers E self state w :
  exists st' w',
    _generate_response E self state w = (Return st', w') /\
    PyStr.strip (Agent.response st') <> "" /\
    Agent.user_input st' = Agent.user_input state /\
    Agent.messages st' = Agent.messages state /\
    Agent.metadata st' = Agent.metadata state /\
    fs w' = fs w /\
    (error_truthy state = true ->
     w' = w /\ Agent.error st' = Agent.error state).
Proof.
  unfold _generate_response.
  destruct (error_truthy state) eqn:Herr.
  - run_monad. eexists _, _. split; [reflexivity|].
    split; [|repeat split].
    cbn [Agent.response Agent.set_response]. rewrite append_cons.
    now apply strip_starts_nonspace.
  - unfold try_except, bind. rewrite generate_response_eq. cbv zeta.
    destruct (llm_invoke E _ _ _) as [content| |e].
    + destruct (negb (PyStr.truthy content)
                || String.eqb (PyStr.strip content) "") eqn:Hblank;
        run_monad; eexists _, _; (split; [reflexivity|]);
        (split; [|repeat split; discriminate]).
      * now apply strip_starts_nonspace.
      * cbn [Agent.response Agent.set_response].
        apply orb_false_iff in Hblank as [_ Hblank].
        now apply String.eqb_neq in Hblank.
    + run_monad. eexists _, _. split; [reflexivity|].
      split; [|repeat split; discriminate].
      now apply strip_starts_nonspace.
    + run_monad. eexists _, _. split; [reflexivity|].
      split; [|repeat split; discriminate].
      cbn [Agent.response Agent.set_response]. rewrite append_cons.
      now apply strip_starts_nonspace.
Qed.

Lemma generate_response_node_always_answers_witness :
  let st := Agent.mkState [HumanMessage "Hi"] "Hi" ""
              (Some (Some "database is down")) ∅ in
  let w := fresh_world prisma_fs default_manager in
  exists st',
    _generate_response env_accepting an_agent st w = (Return st', w) /\
    Agent.error st' = Some (Some "database is down").
Proof.
  cbv zeta.
  destruct (generate_response_node_always_answers env_accepting an_agent
              (Agent.mkState [HumanMessage "Hi"] "Hi" ""
                 (Some (Some "database is down")) ∅)
              (fresh_world prisma_fs default_manager))
    as (st' & w' & Hrun & _ & _ & _ & _ & _ & Hskip).
  destruct (Hskip eq_refl) as [-> He].
  exists st'. split; [exact Hrun|exact He].
Defined.

(** X23: [_generate_response] applied to the state that
    [BasicAgent._process_input] returns calls the chat model exactly once,
    with the agent's system prompt and then the user's input, whatever
    error the state held before; when the model gives an answer that is
    not blank, that answer is the response and the state has no error. *)
Theorem basic_agent_asks_with_prompt_and_input E self state w :
  let msgs := [SystemMessage (Agent.system_prompt self);
               HumanMessage (Agent.user_input state)] in
  let w1 := mkWorld (fs w) (schema_manager w)
              (LLMInvoke (Agent.llm_client self) msgs :: trace w) in
  exists st',
    _generate_response E self (BasicAgent._process_input self state) w
    = (Return st', w1) /\
    Agent.messages st' = msgs /\
    (forall answer,
       llm_invoke E w1 (Agent.llm_client self) msgs = Response answer ->
       PyStr.strip answer <> "" ->
       Agent.response st' = answer /\ Agent.error st' = None).
Proof.
  cbv zeta. unfold _generate_response, BasicAgent._process_input.
  cbv zeta.
  change (error_truthy (BasicAgent.set_messages (Agent.del_error state) _))
    with false. cbv iota.
  unfold try_except, bind. rewrite generate_response_eq. cbv zeta.
  cbn [Agent.messages Agent.llm_client BasicAgent.set_messages
       Agent.user_input Agent.del_error app].
  destruct (llm_invoke E _ _ _) as [content| |e] eqn:Hinv.
  - destruct (negb (PyStr.truthy content)
              || String.eqb (PyStr.strip content) "") eqn:Hblank;
      run_monad; eexists; (split; [reflexivity|]); (split; [reflexivity|]).
    + intros answer [= <-] Hnb. apply orb_true_iff in Hblank as [Hb|Hb].
      * destruct content; [now contradiction Hnb|discriminate].
      * apply String.eqb_eq in Hb. contradiction.
    + intros answer [= <-] _. split; reflexivity.
  - run_monad. eexists. split; [reflexivity|]. split; [reflexivity|].
    discriminate.
  - run_monad. eexists. split; [reflexivity|]. split; [reflexivity|].
    discriminate.
Qed.

Lemma basic_agent_asks_with_prompt_and_input_witness :
  let st := Agent.mkState [] "a blog with posts" ""
              (Some (Some "an earlier error")) ∅ in
  exists st' w1,
    _generate_response env_accepting an_agent
      (BasicAgent._process_input an_agent st)
      (fresh_world prisma_fs default_manager) = (Return st', w1) /\
    Agent.response st' = fenced_reply /\ Agent.error st' = None.
Proof.
  cbv zeta.
  destruct (basic_agent_asks_with_prompt_and_input env_accepting an_agent
              (Agent.mkState [] "a blog with posts" ""
                 (Some (Some "an earlier error")) ∅)
              (fresh_world prisma_fs default_manager))
    as (st' & Hrun & _ & Hans).
  eexists st', _. split; [exact Hrun|].
  apply Hans; [reflexivity|]. vm_compute. discriminate.
Defined.

(** ** The database client *)

(** Unfold the operations of the client's monad. *)
Ltac db_run :=
  repeat (progress (unfold Db.test_connection, Db.execute_command,
                      Db.execute_query, Db.execute_script,
                      Db.ensure_connection, Db.connect, Db.disconnect,
                      Db.with_cursor, Db.first_column_is_one,
                      Db.try_finally, Db.try_except, Db.driver_call,
                      Db.driver_ask, Db.set_connection, Db.get_connection,
                      Db.raise, Db.ret, Db.bind;
                    cbn [Db.connection_url Db._connection Db.calls])).

(** X24: when closing a connection never raises, [test_connection] never
    raises: it returns a boolean and leaves the client without a
    connection; when the connection has been made, closing it is the last
    call to the driver.  It returns [True] only when the connection has
    been made and the row fetched after [SELECT 1] has the value 1 in its
    first column. *)
Theorem test_connection_always_disconnects
    {V} (equals_one : V -> bool) (D : @Db.Driver V) (s : @Db.State V) :
  (forall l, Db.on_close D l = None) ->
  exists b s',
    Db.test_connection equals_one D s = (Return b, s') /\
    Db._connection s' = None /\
    Db.connection_url s' = Db.connection_url s /\
    (forall conn,
       Db.on_connect D (Db.Connect (Db.connection_url s) :: Db.calls s)
       = inr conn ->
       exists l, Db.calls s' = Db.Close conn :: l) /\
    (b = true ->
     exists conn v row,
       Db.on_connect D (Db.Connect (Db.connection_url s) :: Db.calls s)
       = inr conn /\
       Db.on_fetchone D
         (Db.FetchOne conn :: Db.Execute conn "SELECT 1" None
          :: Db.OpenCursor conn false
          :: Db.Connect (Db.connection_url s) :: Db.calls s)
       = inr (Some (v :: row)) /\
       equals_one v = true).
Proof.
  intros Hclose. destruct s as [url c0 cs]. db_run.
  destruct (Db.on_connect D (Db.Connect url :: cs)) as [e|conn] eqn:Hconn;
    db_run.
  - destruct c0 as [c0|]; db_run; [rewrite Hclose|];
      eexists _, _; (split; [reflexivity|]); repeat split;
      try discriminate; intros ? [=].
  - destruct (Db.on_cursor D _); db_run;
      [rewrite Hclose; eexists _, _; (split; [reflexivity|]); repeat split;
       [intros ? [= <-]; eauto | discriminate]|].
    destruct (Db.on_execute D _); db_run.
    + destruct (Db.on_close_cursor D _); db_run; rewrite Hclose;
        eexists _, _; (split; [reflexivity|]); repeat split;
        solve [intros ? [= <-]; eauto | discriminate].
    + destruct (Db.on_fetchone D _) as [e|[[|v row]|]] eqn:Hfetch; db_run;
        destruct (Db.on_close_cursor D _); db_run; rewrite Hclose;
        eexists _, _; (split; [reflexivity|]); repeat split;
        solve [intros ? [= <-]; eauto | discriminate
              | intros Hb; exists conn, v, row; auto].
Qed.

Lemma test_connection_always_disconnects_witness :
  let D := Db.mkDriver (fun _ => inr 7%nat) (fun _ => None) (fun _ => None)
             (fun _ => inr []) (fun _ => inr (Some [1]))
             (fun _ => 0) (fun _ => None) (fun _ => None) (fun _ => None)
             (fun _ => None) in
  exists s',
    Db.test_connection (Z.eqb 1) D (Db.mkState "postgresql://localhost/db" None [])
    = (Return true, s') /\
    Db._connection s' = None /\
    exists l, Db.calls s' = Db.Close 7%nat :: l.
Proof.
  cbv zeta.
  destruct (test_connection_always_disconnects (Z.eqb 1)
              (Db.mkDriver (fun _ => inr 7%nat) (fun _ => None) (fun _ => None)
                 (fun _ => inr []) (fun _ => inr (Some [1]))
                 (fun _ => 0) (fun _ => None) (fun _ => None) (fun _ => None)
                 (fun _ => None))
              (Db.mkState "postgresql://localhost/db" None []))
    as (b & s' & Hrun & Hnone & _ & Hclosed & _); [reflexivity|].
  assert (Hb : b = true).
  { vm_compute in Hrun. now injection Hrun as <- _. }
  subst b. exists s'. split; [exact Hrun|]. split; [exact Hnone|].
  apply Hclosed. reflexivity.
Defined.

Lemma ensure_connection_connected {V} (D : @Db.Driver V) url conn cs :
  Db.ensure_connection D (Db.mkState url (Some conn) cs)
  = (Return conn, Db.mkState url (Some conn) cs).
Proof. reflexivity. Qed.


Lemma db_bind_eq {V A B} (c : @Db.DM V A) (k : A -> @Db.DM V B) s :
  Db.bind c k s
  = match c s with
    | (Return a, s') => k a s'
    | (Raise e, s') => (Raise e, s')
    | (OutOfFuel, s') => (OutOfFuel, s')
    end.
Proof. reflexivity. Qed.




(** X26: on a client that holds a connection, [execute_query] makes no
    new connection and never commits, rolls back or closes, whether it
    returns or raises: it calls the driver only to open a dictionary
    cursor, execute, fetch and close the cursor, and keeps the
    connection.  The rows it returns are those the driver has fetched. *)
Theorem execute_query_only_reads
    {V} (D : @Db.Driver V) query params url conn cs r s' :
  Db.execute_query D query params (Db.mkState url (Some conn) cs) = (r, s') ->
  Db._connection s' = Some conn /\
  (exists new,
     Db.calls s' = (new ++ cs)%list /\ forallb cursor_call new = true) /\
  (forall rows,
     r = Return rows ->
     Db.on_fetchall D
       (Db.FetchAll conn :: Db.Execute conn query params
        :: Db.OpenCursor conn true :: cs) = inr rows).
Proof.
  unfold Db.execute_query. rewrite db_bind_eq, ensure_connection_connected.
  db_run.
  destruct (Db.on_cursor D _); db_run.
  { intros [= <- <-]. split; [reflexivity|]. split; [|discriminate].
    exists [Db.OpenCursor conn true]. auto. }
  destruct (Db.on_execute D _); db_run.
  { destruct (Db.on_close_cursor D _); db_run; intros [= <- <-];
      (split; [reflexivity|]); (split; [|discriminate]);
      exists [Db.CloseCursor conn; Db.Execute conn query params;
              Db.OpenCursor conn true]; auto. }
  destruct (Db.on_fetchall D _) as [e|rows] eqn:Hfetch; db_run;
    destruct (Db.on_close_cursor D _); db_run; intros [= <- <-];
    (split; [reflexivity|]);
    (split; [exists [Db.CloseCursor conn; Db.FetchAll conn;
                     Db.Execute conn query params; Db.OpenCursor conn true];
             auto|]);
    try discriminate.
  intros rows' [= <-]. reflexivity.
Qed.

Lemma execute_query_only_reads_witness :
  let D := Db.mkDriver (fun _ => inr 7%nat) (fun _ => None) (fun _ => None)
             (fun _ => inr [[("id", 1)]]) (fun _ => inr (Some [1]))
             (fun _ => 0) (fun _ => None) (fun _ => None) (fun _ => None)
             (fun _ => None) in
  let out := Db.execute_query D "SELECT id FROM t" None
               (Db.mkState "postgresql://localhost/db" (Some 7%nat) []) in
  fst out = Return [[("id", 1)]] /\
  Db._connection (snd out) = Some 7%nat.
Proof.
  cbv zeta. split; [reflexivity|].
  eapply (execute_query_only_reads
            (Db.mkDriver (fun _ => inr 7%nat) (fun _ => None) (fun _ => None)
               (fun _ => inr [[("id", 1)]]) (fun _ => inr (Some [1]))
               (fun _ => 0) (fun _ => None) (fun _ => None) (fun _ => None)
               (fun _ => None))
            "SELECT id FROM t" None "postgresql://localhost/db" 7%nat []).
  apply surjective_pairing.
Defined.
